(** * Shallow embedding of the sqlite3 migration driver
    (src/database/sqlite/sqlite.go).

    The driver talks to the engine through [db.Exec] and [db.QueryRow].
    The engine is a parameter of the driver section ([engine_exec],
    [engine_query]); a concrete model of the SQLite behaviour for the
    statements the driver issues is given afterwards in [Module Toy].
    The driver's state is the [Sqlite] struct, the engine state, the file
    system (for [Drop]) and the list of statement texts handed to the
    engine, in order. *)

From Stdlib Require Import String Ascii ZArith List Bool Lia.
Import ListNotations.
Open Scope string_scope.

(** ** Go string helpers *)

(** [strings.Replace(s, old, new, -1)]: replace every non-overlapping
    occurrence of [old], scanning left to right.  At every call site of
    the driver [old] is the non-empty constant ["${MIGRATIONS_TABLE}"];
    the fuel is the length of [s], which each step decreases. *)
Fixpoint replace_fuel (fuel : nat) (old new s : string) : string :=
  match fuel with
  | O => s
  | S f =>
      match s with
      | EmptyString => EmptyString
      | String c rest =>
          if (negb (String.eqb old "") && String.prefix old s)%bool
          then new ++ replace_fuel f old new
                 (substring (String.length old)
                    (String.length s - String.length old) s)
          else String c (replace_fuel f old new rest)
      end
  end.

Definition strings_Replace (s old new : string) : string :=
  replace_fuel (String.length s) old new s.

(** [strings.Contains(s, sub)] *)
Fixpoint strings_Contains (s sub : string) : bool :=
  match s with
  | EmptyString => String.prefix sub s
  | String _ rest => String.prefix sub s || strings_Contains rest sub
  end.

(** Decimal printing, as [fmt.Sprintf("%d", n)] for an int64
    (at most 19 digits). *)
Definition digit (d : Z) : ascii := ascii_of_nat (48 + Z.to_nat d).

Fixpoint digits_fuel (fuel : nat) (n : Z) (acc : string) : string :=
  match fuel with
  | O => acc
  | S f =>
      let acc' := String (digit (n mod 10)) acc in
      if (n <? 10)%Z then acc' else digits_fuel f (n / 10) acc'
  end.

Definition sprintf_d (n : Z) : string :=
  if (n <? 0)%Z then "-" ++ digits_fuel 20 (- n) ""
  else digits_fuel 20 n "".

(** int64 wrap-around, as [atomic.AddInt64] does it. *)
Definition wrap64 (x : Z) : Z :=
  ((x + 2 ^ 63) mod 2 ^ 64 - 2 ^ 63)%Z.

Definition nl : string := String (ascii_of_nat 10) EmptyString.
Definition tab : string := String (ascii_of_nat 9) EmptyString.
Definition dq : string := String (ascii_of_nat 34) EmptyString.

(** ** Data model *)

(** Arguments passed with a statement ([arg ...interface{}]). *)
Inductive Arg : Type :=
| AInt (z : Z)
| ABool (b : bool).

(** Column values returned by a query. *)
Inductive Value : Type :=
| VInt (z : Z)
| VBool (b : bool)
| VText (s : string)
| VNull.

(** [type Sqlite struct]; the [*sql.DB] handle is an opaque identifier. *)
Record Sqlite : Type := mkSqlite {
  db : nat;
  dbPath : string;
  migrationsTable : string;
  locked : bool;
  txid : Z
}.

Definition DefaultMigrationsTable : string := "schema_migrations".

Definition MIGRATIONS_TABLE : string := "${MIGRATIONS_TABLE}".

Definition NilVersion : Z := (-1)%Z.

(** The [migration io.Reader] passed to [Run]: either its whole
    content or the error [ioutil.ReadAll] reports. *)
Inductive Reader : Type :=
| RData (bytes : string)
| RFail (e : string).

(** The statement texts of the source. *)
Definition insert_stmt : string :=
  "INSERT INTO ${MIGRATIONS_TABLE} (version, dirty) " ++ nl
  ++ tab ++ tab ++ tab ++ "               VALUES ($1, $2)".

(** The text after the placeholder in [insert_stmt]. *)
Definition insert_tail : string :=
  " (version, dirty) " ++ nl ++ tab ++ tab ++ tab ++ "               VALUES ($1, $2)".

Definition delete_stmt : string := "DELETE FROM ${MIGRATIONS_TABLE}".

Definition txname_of (n : Z) : string := "txn_" ++ sprintf_d n.

Definition version_query (tbl : string) : string :=
  "SELECT version, dirty FROM " ++ dq ++ tbl ++ dq ++ " LIMIT 1".

(** ** The driver, over an engine *)

Section Driver.

(** Engine state and engine error. *)
Variables DB Err : Type.

(** [db.Exec(op, args...)]: new engine state and [nil] or an error. *)
Variable engine_exec : DB -> string -> list Arg -> DB * option Err.

(** [db.QueryRow(query, args...)]: the result rows, or an error. *)
Variable engine_query : DB -> string -> list Arg -> Err + list (list Value).

(** The underlying fault wrapped in a [database.Error]. *)
Inductive OrigErr : Type :=
| OEngine (e : Err)
| OScan.

Inductive Error : Type :=
| DBError (orig : OrigErr) (query : string)  (* &database.Error{...} *)
| ErrLocked                                   (* database.ErrLocked *)
| ReadError (e : string)                      (* from ioutil.ReadAll *)
| PathError (op path : string).               (* from os.Remove *)

(** Driver struct, engine state, file system, and the statement texts
    handed to the engine so far. *)
Record St : Type := mkSt {
  drv : Sqlite;
  dbst : DB;
  fs : list string;
  log : list string
}.

Definition M (A : Type) : Type := St -> St * A.

Definition ret {A} (a : A) : M A := fun st => (st, a).

Definition bind {A B} (m : M A) (k : A -> M B) : M B :=
  fun st => let (st', a) := m st in k a st'.

Notation "x <- m ;; k" := (bind m (fun x => k))
  (at level 61, m at next level, right associativity).

(** [if err := m; err != nil { return err }; k] *)
Definition check (m : M (option Error)) (k : M (option Error))
  : M (option Error) :=
  bind m (fun err => match err with Some _ => ret err | None => k end).

Notation "m ?;; k" := (check m k) (at level 61, right associativity).

Definition get_drv : M Sqlite := fun st => (st, drv st).

Definition put_drv (s : Sqlite) : M unit :=
  fun st => (mkSt s (dbst st) (fs st) (log st), tt).

Definition set_locked (s : Sqlite) (b : bool) : Sqlite :=
  mkSqlite (db s) (dbPath s) (migrationsTable s) b (txid s).

Definition set_txid (s : Sqlite) (n : Z) : Sqlite :=
  mkSqlite (db s) (dbPath s) (migrationsTable s) (locked s) n.

(** [func (s *Sqlite) exec(op string, arg ...interface{}) error] *)
Definition exec (op : string) (args : list Arg) : M (option Error) :=
  fun st =>
    let op' := strings_Replace op MIGRATIONS_TABLE
                 (migrationsTable (drv st)) in
    let (db', r) := engine_exec (dbst st) op' args in
    (mkSt (drv st) db' (fs st) (log st ++ [op']),
     match r with
     | None => None
     | Some e => Some (DBError (OEngine e) op')
     end).

(** [s.db.QueryRow(query, args...)], read only. *)
Definition queryRow (query : string) (args : list Arg)
  : M (Err + list (list Value)) :=
  fun st =>
    (mkSt (drv st) (dbst st) (fs st) (log st ++ [query]),
     engine_query (dbst st) query args).

(** [os.Remove(path)] *)
Definition os_Remove (path : string) : M (option Error) :=
  fun st =>
    if existsb (String.eqb path) (fs st)
    then (mkSt (drv st) (dbst st)
            (filter (fun p => negb (String.eqb path p)) (fs st)) (log st),
          None)
    else (st, Some (PathError "remove" path)).

(** [func (s *Sqlite) Lock() error] *)
Definition Lock : M (option Error) :=
  s <- get_drv ;;
  if locked s then ret (Some ErrLocked) else
  _ <- put_drv (set_locked s true) ;;
  exec "PRAGMA locking_mode = EXCLUSIVE" [] ?;;
  exec "BEGIN EXCLUSIVE" [] ?;;
  ret None.

(** [func (s *Sqlite) Unlock() error] *)
Definition Unlock : M (option Error) :=
  s <- get_drv ;;
  if negb (locked s) then ret None else
  exec "COMMIT" [] ?;;
  ret None.

(** [func (s *Sqlite) Run(migration io.Reader) error] *)
Definition Run (migration : Reader) : M (option Error) :=
  match migration with
  | RFail e => ret (Some (ReadError e))
  | RData buf => exec buf []
  end.

(** [func (s *Sqlite) transactionally(thunk func() error) error].
    The deferred closure runs on every exit and issues the rollback when
    [success] is still false; its result is dropped. *)
Definition transactionally (thunk : M (option Error)) : M (option Error) :=
  s <- get_drv ;;
  let n := wrap64 (txid s + 1) in
  _ <- put_drv (set_txid s n) ;;
  let txname := txname_of n in
  res <- (err <- exec ("SAVEPOINT " ++ txname) [] ;;
          match err with
          | Some _ => ret (false, err)
          | None =>
              err <- thunk ;;
              match err with
              | Some _ => ret (false, err)
              | None =>
                  _ <- exec ("RELEASE " ++ txname) [] ;;
                  ret (true, None)
              end
          end) ;;
  let (success, r) := res in
  _ <- (if success then ret None
        else exec ("ROLLBACK TO " ++ txname) []) ;;
  ret r.

(** [func (s *Sqlite) SetVersion(version int, dirty bool) error] *)
Definition SetVersion (version : Z) (dirty : bool) : M (option Error) :=
  transactionally
    (exec delete_stmt [] ?;;
     if (0 <=? version)%Z
     then exec insert_stmt [AInt version; ABool dirty]
     else ret None).

(** [Scan] into a Go [int] and a Go [bool]. *)
Definition scan_int (v : Value) : option Z :=
  match v with
  | VInt z => Some z
  | _ => None
  end.

Definition scan_bool (v : Value) : option bool :=
  match v with
  | VBool b => Some b
  | VInt 0 => Some false
  | VInt 1 => Some true
  | _ => None
  end.

Definition scan2 (row : list Value) : option (Z * bool) :=
  match row with
  | [v; d] =>
      match scan_int v, scan_bool d with
      | Some z, Some b => Some (z, b)
      | _, _ => None
      end
  | _ => None
  end.

(** [func (s *Sqlite) Version() (int, bool, error)]; an empty result is
    [sql.ErrNoRows]. *)
Definition Version : M (Z * bool * option Error) :=
  s <- get_drv ;;
  let query := version_query (migrationsTable s) in
  res <- queryRow query [] ;;
  match res with
  | inl e => ret (0%Z, false, Some (DBError (OEngine e) query))
  | inr [] => ret (NilVersion, false, None)
  | inr (row :: _) =>
      match scan2 row with
      | Some (v, d) => ret (v, d, None)
      | None => ret (0%Z, false, Some (DBError OScan query))
      end
  end.

(** [func (s *Sqlite) Drop() error] *)
Definition Drop : M (option Error) :=
  s <- get_drv ;;
  os_Remove (dbPath s).

End Driver.

Arguments ret {DB A} a st.
Arguments bind {DB A B} m k st.
Arguments check {DB Err} m k st.
Arguments exec {DB Err} engine_exec op args st.
Arguments Lock {DB Err} engine_exec st.
Arguments Unlock {DB Err} engine_exec st.
Arguments Run {DB Err} engine_exec migration st.
Arguments transactionally {DB Err} engine_exec thunk st.
Arguments SetVersion {DB Err} engine_exec version dirty st.
Arguments Version {DB Err} engine_query st.
Arguments Drop {DB Err} st.
Arguments os_Remove {DB Err} path st.
Arguments queryRow {DB Err} engine_query query args st.

(** ** A model of the SQLite engine for the driver's statements

    One connection.  The engine state holds the rows of the bookkeeping
    table, the caller statements whose effects are applied (created
    tables), the savepoint stack with a snapshot per savepoint, and the
    transaction and locking-mode flags.  [Exec] of a text runs its
    [;]-separated statements in order and stops at the first failing
    one, keeping the effects of the statements before it.  This model
    does not resolve table names, does not check caller statements and
    does not tie savepoints to the transaction state; it serves only the
    properties that hold whatever the names and statements are.  The
    properties that depend on them use the model [Lite] below. *)
Module Toy.

Definition Snapshot : Type := (list (Z * bool) * list string)%type.

Record TDB : Type := mkTDB {
  rows : list (Z * bool);
  user : list string;
  sps : list (string * Snapshot);
  intx : bool;
  excl : bool
}.

Definition TErr : Type := string.

Definition is_space (c : ascii) : bool :=
  match nat_of_ascii c with
  | 32 | 9 | 10 | 13 => true
  | _ => false
  end.

Fixpoint trim_left (s : string) : string :=
  match s with
  | String c rest => if is_space c then trim_left rest else s
  | EmptyString => EmptyString
  end.

(** Split a statement text at every [;]. *)
Fixpoint split_semi (s : string) (cur : string) : list string :=
  match s with
  | EmptyString => [cur]
  | String c rest =>
      if Ascii.eqb c ";"%char then cur :: split_semi rest ""
      else split_semi rest (cur ++ String c EmptyString)
  end.

Definition after (p s : string) : string :=
  substring (String.length p) (String.length s - String.length p) s.

Fixpoint find_sp (name : string) (l : list (string * Snapshot)) : option nat :=
  match l with
  | [] => None
  | (n, _) :: l' =>
      if String.eqb n name then Some 0
      else option_map S (find_sp name l')
  end.

Definition with_rows (d : TDB) (r : list (Z * bool)) : TDB :=
  mkTDB r (user d) (sps d) (intx d) (excl d).

(** One statement. *)
Definition stmt (d : TDB) (s : string) (args : list Arg) : TDB * option TErr :=
  if String.prefix "SAVEPOINT " s then
    (mkTDB (rows d) (user d) ((after "SAVEPOINT " s, (rows d, user d)) :: sps d)
       (intx d) (excl d), None)
  else if String.prefix "RELEASE " s then
    match find_sp (after "RELEASE " s) (sps d) with
    | Some i =>
        (mkTDB (rows d) (user d) (skipn (S i) (sps d)) (intx d) (excl d), None)
    | None => (d, Some "no such savepoint")
    end
  else if String.prefix "ROLLBACK TO " s then
    match find_sp (after "ROLLBACK TO " s) (sps d) with
    | Some i =>
        match nth_error (sps d) i with
        | Some (_, (r, u)) =>
            (mkTDB r u (skipn i (sps d)) (intx d) (excl d), None)
        | None => (d, Some "no such savepoint")
        end
    | None => (d, Some "no such savepoint")
    end
  else if String.prefix "DELETE FROM " s then
    (with_rows d [], None)
  else if String.prefix "INSERT INTO " s then
    match args with
    | [AInt v; ABool b] =>
        if existsb (fun '(v', _) => Z.eqb v v') (rows d)
        then (d, Some "UNIQUE constraint failed")
        else (with_rows d (rows d ++ [(v, b)]), None)
    | _ => (d, Some "not enough arguments")
    end
  else if String.eqb s "PRAGMA locking_mode = EXCLUSIVE" then
    (mkTDB (rows d) (user d) (sps d) (intx d) true, None)
  else if String.eqb s "BEGIN EXCLUSIVE" then
    if intx d then (d, Some "cannot start a transaction within a transaction")
    else (mkTDB (rows d) (user d) (sps d) true (excl d), None)
  else if String.eqb s "COMMIT" then
    if intx d then (mkTDB (rows d) (user d) [] false (excl d), None)
    else (d, Some "cannot commit - no transaction is active")
  else if String.prefix "CREATE TABLE " s then
    (mkTDB (rows d) (user d ++ [s]) (sps d) (intx d) (excl d), None)
  else (d, Some "syntax error").

Fixpoint stmts (d : TDB) (l : list string) (args : list Arg)
  : TDB * option TErr :=
  match l with
  | [] => (d, None)
  | s :: l' =>
      let s' := trim_left s in
      if String.eqb s' "" then stmts d l' args else
      let (d', r) := stmt d s' args in
      match r with
      | Some _ => (d', r)
      | None => stmts d' l' args
      end
  end.

Definition engine_exec (d : TDB) (op : string) (args : list Arg)
  : TDB * option TErr :=
  stmts d (split_semi op "") args.

Definition engine_query (d : TDB) (q : string) (args : list Arg)
  : TErr + list (list Value) :=
  if String.prefix "SELECT version, dirty FROM " q
  then inr (map (fun '(v, b) => [VInt v; VBool b]) (rows d))
  else inl "syntax error".

End Toy.

Arguments DBError {Err} orig query.
Arguments ErrLocked {Err}.
Arguments ReadError {Err} e.
Arguments PathError {Err} op path.
Arguments OEngine {Err} e.
Arguments OScan {Err}.
Arguments mkSt {DB} drv dbst fs log.
Arguments drv {DB} s.
Arguments dbst {DB} s.
Arguments fs {DB} s.
Arguments log {DB} s.

(** ** Concrete inputs *)

(** A driver just returned by [Open] on a fresh database file. *)
Definition fresh_state : St Toy.TDB :=
  mkSt (mkSqlite 0 "/tmp/migrate.db" DefaultMigrationsTable false 0)
       (Toy.mkTDB [] [] [] false false) ["/tmp/migrate.db"] [].

(** The engine model while another process holds the database's
    exclusive lock: [BEGIN EXCLUSIVE] reports [SQLITE_BUSY]. *)
Definition busy_exec (d : Toy.TDB) (op : string) (args : list Arg)
  : Toy.TDB * option Toy.TErr :=
  if String.eqb op "BEGIN EXCLUSIVE" then (d, Some "database is locked")
  else Toy.engine_exec d op args.

(** A script whose first statement is valid and whose second is not. *)
Definition two_stmt_script : string := "CREATE TABLE t(x int); INSRT BOGUS".

(** A script that mentions the placeholder token. *)
Definition placeholder_script : string :=
  "CREATE TABLE ${MIGRATIONS_TABLE}_copy (x int)".

(** A thunk that fails, and one that succeeds after releasing the
    enclosing savepoint itself, so that the driver's own RELEASE fails. *)
Definition failing_thunk : M Toy.TDB (option (Error Toy.TErr)) :=
  exec Toy.engine_exec "INSRT BOGUS" [].

Definition releasing_thunk : M Toy.TDB (option (Error Toy.TErr)) :=
  exec Toy.engine_exec "RELEASE txn_1" [].

(** [fresh_state] once [transactionally] has bumped [txid] to 1, and once
    it has then created the savepoint [txn_1]. *)
Definition tx_start : St Toy.TDB :=
  mkSt (set_txid (drv fresh_state) 1) (dbst fresh_state) (fs fresh_state)
       (log fresh_state).

Definition tx_saved : St Toy.TDB :=
  fst (exec Toy.engine_exec "SAVEPOINT txn_1" [] tx_start).

(** ** Opening a driver *)

(** A parsed [*url.URL]: its path and its query parameters in the order
    they appear, already decoded. *)
Record URL : Type := mkURL {
  Path : string;
  Query : list (string * string)
}.

(** [u.Query()[opt]] *)
Definition query_values (u : URL) (opt : string) : list string :=
  map snd (filter (fun kv => String.eqb (fst kv) opt) (Query u)).

(** [func getOptionWithDefault(u *url.URL, opt, dflt string) string] *)
Definition getOptionWithDefault (u : URL) (opt dflt : string) : string :=
  match query_values u opt with
  | [] => dflt
  | v :: _ => v
  end.

(** The result of [url.Parse(uri)]. *)
Inductive ParsedURI : Type :=
| URIError (e : string)
| URIOk (u : URL).

Definition count_query : string :=
  "SELECT COUNT(1) FROM sqlite_master WHERE type = 'table' AND name = $1".

Definition create_stmt : string :=
  "CREATE TABLE ${MIGRATIONS_TABLE} (version bigint not null primary key, dirty boolean not null)".

(** The text after the placeholder in [create_stmt]. *)
Definition create_tail : string :=
  " (version bigint not null primary key, dirty boolean not null)".

Section OpenDriver.

Context {DB Err : Type}.
Variable E : DB -> string -> list Arg -> DB * option Err.

(** [s.db.QueryRow(query, name)] with one string argument, read only. *)
Variable catalog_query : DB -> string -> string -> Err + list (list Value).

(** [s.db.QueryRow(query, arg)] *)
Definition catalogRow (query arg : string) : M DB (Err + list (list Value)) :=
  fun st =>
    (mkSt (drv st) (dbst st) (fs st) (log st ++ [query]),
     catalog_query (dbst st) query arg).

(** [func (s *Sqlite) ensureVersionTable() error].  A failed [Scan]
    ([sql.ErrNoRows] included) is wrapped as [OScan]. *)
Definition ensureVersionTable : M DB (option (Error Err)) :=
  bind (get_drv DB) (fun s =>
  bind (catalogRow count_query (migrationsTable s)) (fun res =>
  match res with
  | inl e => ret (Some (DBError (OEngine e) count_query))
  | inr ([v] :: _) =>
      match scan_int v with
      | Some count =>
          if (count =? 1)%Z then ret None
          else check (exec E create_stmt []) (ret None)
      | None => ret (Some (DBError OScan count_query))
      end
  | inr _ => ret (Some (DBError OScan count_query))
  end)).

(** Errors [Open] returns: from [url.Parse], from [db.Ping], or from
    [ensureVersionTable]. *)
Inductive OpenError : Type :=
| OpenURLError (e : string)
| OpenPingError (e : Err)
| OpenEnsureError (e : Error Err).

(** [func (s *Sqlite) Open(uri string) (database.Driver, error)].
    [connect path] is the engine state of the database file at [path],
    [handle] the [*sql.DB] that [sql.Open] returns, [ping] is [db.Ping()]
    and [files] the file system. *)
Definition Open (connect : string -> DB) (ping : DB -> option Err)
  (handle : nat) (files : list string) (uri : ParsedURI)
  : option (St DB) * option OpenError :=
  match uri with
  | URIError e => (None, Some (OpenURLError e))
  | URIOk u =>
      let migTbl := getOptionWithDefault u "x-migrations-table"
                      DefaultMigrationsTable in
      let st := mkSt (mkSqlite handle (Path u) migTbl false 0)
                     (connect (Path u)) files [] in
      match ping (dbst st) with
      | Some e => (None, Some (OpenPingError e))
      | None =>
          let (st', r) := ensureVersionTable st in
          match r with
          | Some e => (None, Some (OpenEnsureError e))
          | None => (Some st', None)
          end
      end
  end.

End OpenDriver.

(** The catalog on the engine model: [sqlite_master] lists a table iff
    the model has run the driver's [CREATE TABLE] for that name. *)
Definition toy_catalog (d : Toy.TDB) (q name : string)
  : Toy.TErr + list (list Value) :=
  if String.eqb q count_query
  then inr [[VInt (if existsb (String.eqb ("CREATE TABLE " ++ name ++ create_tail))
                              (Toy.user d)
                   then 1 else 0)]]
  else inl "syntax error".

(** A database file that is reachable and empty. *)
Definition toy_connect (path : string) : Toy.TDB := Toy.mkTDB [] [] [] false false.

Definition toy_ping (d : Toy.TDB) : option Toy.TErr := None.


(** The engine model with a fault injected into the savepoint: every
    [SAVEPOINT] statement fails. *)
Definition savepoint_fail_exec (d : Toy.TDB) (op : string) (args : list Arg)
  : Toy.TDB * option Toy.TErr :=
  if String.prefix "SAVEPOINT " op then (d, Some "database is locked")
  else Toy.engine_exec d op args.

(** The engine model with a fault injected into the bookkeeping delete:
    every [DELETE FROM] statement fails. *)
Definition delete_fail_exec (d : Toy.TDB) (op : string) (args : list Arg)
  : Toy.TDB * option Toy.TErr :=
  if String.prefix "DELETE FROM " op then (d, Some "disk I/O error")
  else Toy.engine_exec d op args.

(** An engine that refuses every statement, as a read-only file does. *)
Definition readonly_exec (d : Toy.TDB) (op : string) (args : list Arg)
  : Toy.TDB * option Toy.TErr :=
  (d, Some "attempt to write a readonly database").

(** A query that fails, as on a database file that is not a database. *)
Definition notadb_query (d : Toy.TDB) (q : string) (args : list Arg)
  : Toy.TErr + list (list Value) :=
  inl "file is not a database".

(** Character predicates on statement texts. *)
Fixpoint all_chars (p : ascii -> bool) (s : string) : bool :=
  match s with
  | EmptyString => true
  | String c rest => p c && all_chars p rest
  end.

Definition no_semi (s : string) : bool :=
  all_chars (fun c => negb (Ascii.eqb c ";"%char)) s.

Definition no_dollar (s : string) : bool :=
  all_chars (fun c => negb (Ascii.eqb c "$"%char)) s.

(** ** A second engine model, resolving table names

    [Module Toy] does not look at table names.  [Module Lite] keeps the
    bookkeeping-shaped tables of the database by name and reads every
    name the way SQLite does, for the names it covers; on anything else
    it stops with the error [outside].  It covers:
    - unquoted table names that are plain identifiers (see
      [plain_ident]), optionally written [main.<name>], which names the
      same table; names starting with [sqlite_] are left out;
    - a double-quoted table name, which is one identifier taken
      verbatim ("main.t" is the table named [main.t], not [t]);
    - table and savepoint names compared without regard to ASCII case,
      while [sqlite_master.name = $1] compares exactly;
    - [SAVEPOINT] outside a transaction opens one; [RELEASE] of the
      outermost savepoint of such a transaction commits it; [ROLLBACK TO]
      restores the tables and keeps the savepoint and the transaction;
      [BEGIN] inside a transaction fails; [COMMIT] ends the transaction
      and drops every savepoint.
    One connection: no other process holds a lock.  Durability (the
    journal) is not modelled. *)
Module Lite.

Inductive TxKind : Type := ByBegin | BySavepoint.

(** Tables with the bookkeeping schema, by the name they were created
    with, and their rows in insertion order. *)
Definition Tables : Type := list (string * list (Z * bool)).

Record LDB : Type := mkLDB {
  tables : Tables;
  sps : list (string * Tables);   (* innermost first, with a snapshot *)
  txn : option TxKind;
  excl : bool
}.

Definition LErr : Type := string.

Definition outside : LErr := "outside the model".

Definition in_range (lo hi : nat) (c : ascii) : bool :=
  Nat.leb lo (nat_of_ascii c) && Nat.leb (nat_of_ascii c) hi.

Definition is_alpha (c : ascii) : bool := in_range 65 90 c || in_range 97 122 c.
Definition is_digit (c : ascii) : bool := in_range 48 57 c.
Definition is_under (c : ascii) : bool := Ascii.eqb c "_"%char.
Definition ident_char (c : ascii) : bool := is_alpha c || is_digit c || is_under c.

Definition lower_char (c : ascii) : ascii :=
  if in_range 65 90 c then ascii_of_nat (nat_of_ascii c + 32) else c.

Fixpoint lower (s : string) : string :=
  match s with
  | EmptyString => EmptyString
  | String c r => String (lower_char c) (lower r)
  end.

Definition name_eq (a b : string) : bool := String.eqb (lower a) (lower b).

Fixpoint any_char (p : ascii -> bool) (s : string) : bool :=
  match s with
  | EmptyString => false
  | String c r => p c || any_char p r
  end.

(** Every SQLite keyword has at least two letters and no digit, and only
    CURRENT_DATE, CURRENT_TIME and CURRENT_TIMESTAMP contain [_]; so an
    identifier of one letter, or with a digit or [_] and none of those
    three, is never read as a keyword. *)
Definition keywords_with_underscore : list string :=
  ["current_date"; "current_time"; "current_timestamp"].

Definition plain_ident (s : string) : bool :=
  match s with
  | EmptyString => false
  | String c r =>
      (is_alpha c || is_under c) && all_chars ident_char r &&
      ((String.length s =? 1)%nat || any_char (fun c => is_digit c || is_under c) s) &&
      negb (existsb (String.eqb (lower s)) keywords_with_underscore)
  end.

Definition reserved (s : string) : bool := String.prefix "sqlite_" (lower s).

Definition table_name_ok (s : string) : bool := plain_ident s && negb (reserved s).

(** An unquoted table name: [t] or [main.t]. *)
Definition resolve (n : string) : option string :=
  if table_name_ok n then Some n
  else if String.prefix "main." n && table_name_ok (Toy.after "main." n)
  then Some (Toy.after "main." n)
  else None.

Fixpoint find_table (n : string) (ts : Tables) : option (list (Z * bool)) :=
  match ts with
  | [] => None
  | (m, r) :: ts' => if name_eq m n then Some r else find_table n ts'
  end.

Fixpoint set_rows (n : string) (r : list (Z * bool)) (ts : Tables) : Tables :=
  match ts with
  | [] => []
  | (m, r0) :: ts' => if name_eq m n then (m, r) :: ts' else (m, r0) :: set_rows n r ts'
  end.

Fixpoint find_sp (n : string) (l : list (string * Tables)) : option nat :=
  match l with
  | [] => None
  | (m, _) :: l' => if name_eq m n then Some 0 else option_map S (find_sp n l')
  end.

(** [s] without the suffix [suf]. *)
Fixpoint strip_suffix (suf s : string) : option string :=
  if String.eqb s suf then Some EmptyString
  else match s with
       | EmptyString => None
       | String c r => option_map (String c) (strip_suffix suf r)
       end.

(** The text up to the next double quote, and the text after it. *)
Fixpoint split_dq (s : string) : option (string * string) :=
  match s with
  | EmptyString => None
  | String c r =>
      if Ascii.eqb c (ascii_of_nat 34) then Some (EmptyString, r)
      else option_map (fun p => (String c (fst p), snd p)) (split_dq r)
  end.

Definition quoted (s : string) : option (string * string) :=
  match s with
  | String c r => if Ascii.eqb c (ascii_of_nat 34) then split_dq r else None
  | EmptyString => None
  end.

Definition with_tables (d : LDB) (ts : Tables) : LDB :=
  mkLDB ts (sps d) (txn d) (excl d).

(** A [SAVEPOINT] outside a transaction opens one. *)
Definition savepoint_txn (t : option TxKind) : option TxKind :=
  match t with
  | None => Some BySavepoint
  | Some k => Some k
  end.

(** A [RELEASE] that empties the savepoint stack of a transaction a
    [SAVEPOINT] opened commits it. *)
Definition close_if_outermost (rest : list (string * Tables)) (t : option TxKind)
  : option TxKind :=
  match rest, t with
  | [], Some BySavepoint => None
  | _, _ => t
  end.

(** One statement. *)
Definition stmt (d : LDB) (s : string) (args : list Arg) : LDB * option LErr :=
  if String.prefix "SAVEPOINT " s then
    let nm := Toy.after "SAVEPOINT " s in
    if plain_ident nm then
      (mkLDB (tables d) ((nm, tables d) :: sps d) (savepoint_txn (txn d)) (excl d), None)
    else (d, Some outside)
  else if String.prefix "RELEASE " s then
    let nm := Toy.after "RELEASE " s in
    if plain_ident nm then
      match find_sp nm (sps d) with
      | Some i =>
          let rest := skipn (S i) (sps d) in
          (mkLDB (tables d) rest (close_if_outermost rest (txn d)) (excl d), None)
      | None => (d, Some ("no such savepoint: " ++ nm))
      end
    else (d, Some outside)
  else if String.prefix "ROLLBACK TO " s then
    let nm := Toy.after "ROLLBACK TO " s in
    if plain_ident nm then
      match find_sp nm (sps d) with
      | Some i =>
          match nth_error (sps d) i with
          | Some (_, ts) => (mkLDB ts (skipn i (sps d)) (txn d) (excl d), None)
          | None => (d, Some ("no such savepoint: " ++ nm))
          end
      | None => (d, Some ("no such savepoint: " ++ nm))
      end
    else (d, Some outside)
  else if String.prefix "DELETE FROM " s then
    match resolve (Toy.after "DELETE FROM " s) with
    | Some n =>
        match find_table n (tables d) with
        | Some _ => (with_tables d (set_rows n [] (tables d)), None)
        | None => (d, Some ("no such table: " ++ n))
        end
    | None => (d, Some outside)
    end
  else if String.prefix "INSERT INTO " s then
    match strip_suffix insert_tail (Toy.after "INSERT INTO " s) with
    | Some raw =>
        match resolve raw, args with
        | Some n, [AInt v; ABool b] =>
            match find_table n (tables d) with
            | Some r =>
                if existsb (fun row => Z.eqb v (fst row)) r
                then (d, Some ("UNIQUE constraint failed: " ++ n ++ ".version"))
                else (with_tables d (set_rows n (r ++ [(v, b)])%list (tables d)), None)
            | None => (d, Some ("no such table: " ++ n))
            end
        | _, _ => (d, Some outside)
        end
    | None => (d, Some outside)
    end
  else if String.eqb s "PRAGMA locking_mode = EXCLUSIVE" then
    (mkLDB (tables d) (sps d) (txn d) true, None)
  else if String.eqb s "BEGIN EXCLUSIVE" then
    match txn d with
    | None => (mkLDB (tables d) (sps d) (Some ByBegin) (excl d), None)
    | Some _ => (d, Some "cannot start a transaction within a transaction")
    end
  else if String.eqb s "COMMIT" then
    match txn d with
    | Some _ => (mkLDB (tables d) [] None (excl d), None)
    | None => (d, Some "cannot commit - no transaction is active")
    end
  else if String.prefix "CREATE TABLE " s then
    match strip_suffix create_tail (Toy.after "CREATE TABLE " s) with
    | Some raw =>
        match resolve raw with
        | Some n =>
            match find_table n (tables d) with
            | Some _ => (d, Some ("table " ++ n ++ " already exists"))
            | None => (with_tables d (tables d ++ [(n, [])])%list, None)
            end
        | None => (d, Some outside)
        end
    | None => (d, Some outside)
    end
  else (d, Some outside).

Fixpoint stmts (d : LDB) (l : list string) (args : list Arg) : LDB * option LErr :=
  match l with
  | [] => (d, None)
  | s :: l' =>
      let s' := Toy.trim_left s in
      if String.eqb s' "" then stmts d l' args else
      let (d', r) := stmt d s' args in
      match r with
      | Some _ => (d', r)
      | None => stmts d' l' args
      end
  end.

Definition engine_exec (d : LDB) (op : string) (args : list Arg) : LDB * option LErr :=
  stmts d (Toy.split_semi op "") args.

(** [QueryRow] of the driver's [Version] query, [LIMIT 1] included. *)
Definition engine_query (d : LDB) (q : string) (args : list Arg)
  : LErr + list (list Value) :=
  if String.prefix "SELECT version, dirty FROM " q then
    match quoted (Toy.after "SELECT version, dirty FROM " q) with
    | Some (n, rest) =>
        if String.eqb rest " LIMIT 1" && negb (String.eqb n "") && negb (reserved n) then
          match find_table n (tables d) with
          | Some r => inr (map (fun row => [VInt (fst row); VBool (snd row)]) (firstn 1 r))
          | None => inl ("no such table: " ++ n)
          end
        else inl outside
    | None => inl outside
    end
  else inl outside.

(** The catalog query of [ensureVersionTable]: [sqlite_master.name]
    holds the name a table was created with, compared exactly. *)
Definition catalog (d : LDB) (q name : string) : LErr + list (list Value) :=
  if String.eqb q count_query
  then inr [[VInt (Z.of_nat (length (filter (fun t => String.eqb (fst t) name) (tables d))))]]
  else inl outside.

(** A database file with no table, and no transaction. *)
Definition empty : LDB := mkLDB [] [] None false.

End Lite.

(** The driver [Open] returns on a new file, on the named model. *)
Definition lite_fresh : St Lite.LDB :=
  mkSt (mkSqlite 0 "/tmp/migrate.db" DefaultMigrationsTable false 0)
       (Lite.mkLDB [(DefaultMigrationsTable, [])] [] None false) ["/tmp/migrate.db"] [].

(** The driver state [Open] builds before [ensureVersionTable], on a new
    database file. *)
Definition lite_new : St Lite.LDB :=
  mkSt (mkSqlite 0 "/tmp/migrate.db" DefaultMigrationsTable false 0)
       Lite.empty ["/tmp/migrate.db"] [].

(** The same, with [x-migrations-table=main.schema_migrations]. *)
Definition qualified_new : St Lite.LDB :=
  mkSt (mkSqlite 0 "/tmp/migrate.db" "main.schema_migrations" false 0)
       Lite.empty ["/tmp/migrate.db"] [].

(** [x-migrations-table] set to a schema-qualified name. *)
Definition qualified_url : URL :=
  mkURL "/tmp/migrate.db" [("x-migrations-table", "main.schema_migrations")].

Definition open_qualified :=
  Open Lite.engine_exec Lite.catalog (fun _ => Lite.empty) (fun _ => None) 0
       ["/tmp/migrate.db"] (URIOk qualified_url).

(** The driver [open_qualified] returns. *)
Definition qualified_driver : St Lite.LDB :=
  match fst open_qualified with
  | Some st => st
  | None => lite_new
  end.

(** ** String lemmas *)

Lemma all_chars_app (p : ascii -> bool) (a b : string) :
  all_chars p (a ++ b) = all_chars p a && all_chars p b.
Proof.
  induction a as [|c a IH]; simpl; [reflexivity|].
  rewrite IH. apply andb_assoc.
Qed.

Lemma string_app_assoc (a b c : string) : (a ++ b) ++ c = a ++ (b ++ c).
Proof. induction a as [|x a IH]; simpl; [reflexivity | now rewrite IH]. Qed.

Lemma string_app_nil_r (a : string) : a ++ "" = a.
Proof. induction a as [|x a IH]; simpl; [reflexivity | now rewrite IH]. Qed.

Lemma replace_fuel_id (old new : string) :
  forall fuel s, strings_Contains s old = false ->
  replace_fuel fuel old new s = s.
Proof.
  induction fuel as [|f IH]; intros s H; [reflexivity|].
  destruct s as [|c rest]; [reflexivity|].
  cbn [strings_Contains] in H. cbn [replace_fuel].
  apply orb_false_elim in H as [Hp Hc].
  rewrite Hp, andb_false_r. f_equal. now apply IH.
Qed.

Lemma Replace_id (s old new : string) :
  strings_Contains s old = false -> strings_Replace s old new = s.
Proof. intros H. now apply replace_fuel_id. Qed.

Lemma prefix_head_neq (a b : ascii) (s1 s2 : string) :
  a <> b -> String.prefix (String a s1) (String b s2) = false.
Proof. intros H. simpl. destruct (ascii_dec a b); [contradiction | reflexivity]. Qed.

Lemma Contains_no_dollar (s : string) :
  no_dollar s = true -> strings_Contains s MIGRATIONS_TABLE = false.
Proof.
  unfold no_dollar. induction s as [|c rest IH]; intros H; [reflexivity|].
  cbn [all_chars] in H. apply andb_prop in H as [Hc Hr].
  cbn [strings_Contains]. rewrite (IH Hr), orb_false_r.
  unfold MIGRATIONS_TABLE. apply prefix_head_neq.
  intros E. subst c. discriminate Hc.
Qed.

Lemma Replace_no_dollar (s t : string) :
  no_dollar s = true -> strings_Replace s MIGRATIONS_TABLE t = s.
Proof. intros H. apply Replace_id, Contains_no_dollar, H. Qed.

Lemma small_digit_plain (k : nat) :
  (k < 10)%nat ->
  no_semi (String (ascii_of_nat (48 + k)) "") = true /\
  no_dollar (String (ascii_of_nat (48 + k)) "") = true.
Proof. intros Hk. do 10 (destruct k as [|k]; [split; reflexivity|]). lia. Qed.

Lemma digit_range (n : Z) :
  no_semi (String (digit (n mod 10)) "") = true /\
  no_dollar (String (digit (n mod 10)) "") = true.
Proof.
  apply small_digit_plain.
  assert (Hb := Z.mod_pos_bound n 10 ltac:(lia)). lia.
Qed.

Lemma plain_cons (c : ascii) (acc : string) :
  no_semi (String c "") = true /\ no_dollar (String c "") = true ->
  no_semi acc = true -> no_dollar acc = true ->
  no_semi (String c acc) = true /\ no_dollar (String c acc) = true.
Proof.
  unfold no_semi, no_dollar. cbn [all_chars].
  intros [A B] C D. rewrite andb_true_r in A, B. now rewrite A, B, C, D.
Qed.

Lemma digits_fuel_plain (fuel : nat) :
  forall n acc, no_semi acc = true -> no_dollar acc = true ->
  no_semi (digits_fuel fuel n acc) = true /\
  no_dollar (digits_fuel fuel n acc) = true.
Proof.
  induction fuel as [|f IH]; intros n acc Hs Hd; cbn [digits_fuel]; [auto|].
  destruct (plain_cons (digit (n mod 10)) acc (digit_range n) Hs Hd) as [A B].
  destruct (n <? 10)%Z; auto.
Qed.

Lemma txname_plain (n : Z) :
  no_semi (txname_of n) = true /\ no_dollar (txname_of n) = true.
Proof.
  unfold txname_of, sprintf_d, no_semi, no_dollar.
  rewrite !all_chars_app.
  destruct (digits_fuel_plain 20 (- n) "" eq_refl eq_refl) as [A B].
  destruct (digits_fuel_plain 20 n "" eq_refl eq_refl) as [C D].
  unfold no_semi, no_dollar in A, B, C, D.
  destruct (n <? 0)%Z; rewrite ?all_chars_app, ?A, ?B, ?C, ?D; auto.
Qed.

(** ** The driver's statements *)

Section Generic.

Context {DB Err : Type}.
Variable E : DB -> string -> list Arg -> DB * option Err.

Lemma exec_no_dollar (op : string) (args : list Arg) (st : St DB) :
  no_dollar op = true ->
  exec E op args st =
  (mkSt (drv st) (fst (E (dbst st) op args)) (fs st) (log st ++ [op]),
   option_map (fun e => DBError (OEngine e) op) (snd (E (dbst st) op args))).
Proof.
  intros H. unfold exec. rewrite Replace_no_dollar by exact H.
  destruct (E (dbst st) op args) as [d r]. destruct r; reflexivity.
Qed.

Lemma transactionally_unfold (thunk : M DB (option (Error Err))) (st : St DB) :
  let n := wrap64 (txid (drv st) + 1) in
  let nm := txname_of n in
  transactionally E thunk st =
  let (stB, err) := exec E ("SAVEPOINT " ++ nm) []
                      (mkSt (set_txid (drv st) n) (dbst st) (fs st) (log st)) in
  match err with
  | Some _ => (fst (exec E ("ROLLBACK TO " ++ nm) [] stB), err)
  | None =>
      let (stC, err') := thunk stB in
      match err' with
      | Some _ => (fst (exec E ("ROLLBACK TO " ++ nm) [] stC), err')
      | None => (fst (exec E ("RELEASE " ++ nm) [] stC), None)
      end
  end.
Proof.
  intros n nm. unfold transactionally, bind, get_drv, put_drv, ret. fold n nm.
  destruct (exec E ("SAVEPOINT " ++ nm) [] _) as [stB [e|]].
  { destruct (exec E ("ROLLBACK TO " ++ nm) [] stB); reflexivity. }
  destruct (thunk stB) as [stC [e'|]].
  { destruct (exec E ("ROLLBACK TO " ++ nm) [] stC); reflexivity. }
  destruct (exec E ("RELEASE " ++ nm) [] stC); reflexivity.
Qed.

Lemma exec_drv (op : string) (args : list Arg) (st : St DB) :
  drv (fst (exec E op args st)) = drv st.
Proof. unfold exec. destruct (E _ _ _). reflexivity. Qed.

Lemma check_drv (m k : M DB (option (Error Err))) :
  (forall st, drv (fst (m st)) = drv st) ->
  (forall st, drv (fst (k st)) = drv st) ->
  forall st, drv (fst (check m k st)) = drv st.
Proof.
  intros Hm Hk st. unfold check, bind.
  specialize (Hm st). destruct (m st) as [s1 [e|]]; simpl in *.
  - exact Hm.
  - rewrite Hk. exact Hm.
Qed.

Lemma Lock_sets_locked (st : St DB) : locked (drv (fst (Lock E st))) = true.
Proof.
  unfold Lock, bind, get_drv, put_drv.
  destruct (locked (drv st)) eqn:L; [exact L|].
  rewrite check_drv; [reflexivity | apply exec_drv |].
  apply check_drv; [apply exec_drv | reflexivity].
Qed.

Lemma Lock_when_locked (st : St DB) :
  locked (drv st) = true -> Lock E st = (st, Some ErrLocked).
Proof. intros L. unfold Lock, bind, get_drv, ret. now rewrite L. Qed.

Lemma Unlock_drv (st : St DB) : drv (fst (Unlock E st)) = drv st.
Proof.
  unfold Unlock, bind, get_drv.
  destruct (negb (locked (drv st))); [reflexivity|].
  apply check_drv; [apply exec_drv | reflexivity].
Qed.

Lemma Run_exec (buf : string) (st : St DB) :
  Run E (RData buf) st = exec E buf [] st.
Proof. reflexivity. Qed.

Lemma exec_log (op : string) (args : list Arg) (st : St DB) :
  log (fst (exec E op args st)) =
  (log st ++ [strings_Replace op MIGRATIONS_TABLE (migrationsTable (drv st))])%list.
Proof. unfold exec. destruct (E _ _ _). reflexivity. Qed.

End Generic.

(** ** Facts about the engine model *)

Lemma prefix_app (p t : string) : String.prefix p (p ++ t) = true.
Proof.
  induction p as [|c p IH]; [destruct t; reflexivity|].
  simpl. destruct (ascii_dec c c); [exact IH | contradiction].
Qed.

Lemma substring_app (p t : string) (m : nat) :
  substring (String.length p) m (p ++ t) = substring 0 m t.
Proof. induction p as [|c p IH]; [reflexivity | exact IH]. Qed.

Lemma length_app (p t : string) :
  String.length (p ++ t) = String.length p + String.length t.
Proof. induction p as [|c p IH]; simpl; [reflexivity | now rewrite IH]. Qed.

Lemma substring_full (t : string) : substring 0 (String.length t) t = t.
Proof. induction t as [|c t IH]; simpl; [reflexivity | now rewrite IH]. Qed.

Lemma after_app (p t : string) : Toy.after p (p ++ t) = t.
Proof.
  unfold Toy.after. rewrite length_app, substring_app.
  replace (String.length p + String.length t - String.length p)
    with (String.length t) by lia.
  apply substring_full.
Qed.

Lemma split_no_semi (s cur : string) :
  no_semi s = true -> Toy.split_semi s cur = [cur ++ s].
Proof.
  unfold no_semi. revert cur.
  induction s as [|c s IH]; intros cur H.
  - now rewrite string_app_nil_r.
  - cbn [all_chars] in H. apply andb_prop in H as [Hc Hs].
    cbn [Toy.split_semi]. apply negb_true_iff in Hc. rewrite Hc.
    rewrite IH by exact Hs. now rewrite string_app_assoc.
Qed.





Lemma replace_delete (tbl : string) :
  strings_Replace delete_stmt MIGRATIONS_TABLE tbl = "DELETE FROM " ++ tbl.
Proof. cbv. now rewrite string_app_nil_r. Qed.

Lemma replace_insert (tbl : string) :
  strings_Replace insert_stmt MIGRATIONS_TABLE tbl = "INSERT INTO " ++ tbl ++ insert_tail.
Proof. reflexivity. Qed.

Lemma replace_create (tbl : string) :
  strings_Replace create_stmt MIGRATIONS_TABLE tbl = "CREATE TABLE " ++ tbl ++ create_tail.
Proof. reflexivity. Qed.



Lemma no_semi_app (a b : string) :
  no_semi (a ++ b) = no_semi a && no_semi b.
Proof. apply all_chars_app. Qed.

Lemma no_dollar_app (a b : string) :
  no_dollar (a ++ b) = no_dollar a && no_dollar b.
Proof. apply all_chars_app. Qed.

Section ToyExec.

Variable st : St Toy.TDB.
Let tbl := migrationsTable (drv st).
Hypothesis Htbl : no_semi tbl = true.





End ToyExec.


Section GenericSetVersion.

Context {DB Err : Type}.
Variable E : DB -> string -> list Arg -> DB * option Err.



End GenericSetVersion.

(** ** Facts about the named engine model *)

Lemma ident_char_facts (c : ascii) :
  Lite.ident_char c = true ->
  negb (Ascii.eqb c ";"%char) = true /\ negb (Ascii.eqb c "$"%char) = true /\
  negb (Ascii.eqb c (ascii_of_nat 34)) = true /\ Toy.is_space c = false.
Proof.
  destruct c as [[] [] [] [] [] [] [] []]; intros H;
    solve [discriminate H | repeat split].
Qed.

Lemma all_chars_impl (p q : ascii -> bool) (s : string) :
  (forall c, p c = true -> q c = true) -> all_chars p s = true -> all_chars q s = true.
Proof.
  intros Hpq. induction s as [|c s IH]; cbn [all_chars]; [auto|].
  intros H. apply andb_prop in H as [H1 H2]. rewrite (Hpq c H1), (IH H2). reflexivity.
Qed.

Lemma plain_ident_chars (s : string) :
  Lite.plain_ident s = true ->
  all_chars Lite.ident_char s = true /\ exists c r, s = String c r.
Proof.
  destruct s as [|c r]; [discriminate|]. unfold Lite.plain_ident.
  intros H. apply andb_prop in H as [H _]. apply andb_prop in H as [H _].
  apply andb_prop in H as [H1 H2]. split; [|eauto].
  cbn [all_chars]. rewrite H2, andb_true_r. unfold Lite.ident_char.
  apply orb_prop in H1 as [H1|H1]; rewrite H1; [reflexivity|]. apply orb_true_r.
Qed.

Lemma plain_no_semi (s : string) : Lite.plain_ident s = true -> no_semi s = true.
Proof.
  intros H. apply plain_ident_chars in H as [H _]. unfold no_semi.
  revert H. apply all_chars_impl. intros c Hc. apply (ident_char_facts c Hc).
Qed.

Lemma plain_no_dollar (s : string) : Lite.plain_ident s = true -> no_dollar s = true.
Proof.
  intros H. apply plain_ident_chars in H as [H _]. unfold no_dollar.
  revert H. apply all_chars_impl. intros c Hc. apply (ident_char_facts c Hc).
Qed.

Lemma plain_no_dq (s : string) :
  Lite.plain_ident s = true ->
  all_chars (fun c => negb (Ascii.eqb c (ascii_of_nat 34))) s = true.
Proof.
  intros H. apply plain_ident_chars in H as [H _].
  revert H. apply all_chars_impl. intros c Hc. apply (ident_char_facts c Hc).
Qed.

Lemma table_name_plain (s : string) :
  Lite.table_name_ok s = true -> Lite.plain_ident s = true /\ Lite.reserved s = false.
Proof.
  unfold Lite.table_name_ok. intros H. apply andb_prop in H as [H1 H2].
  split; [exact H1|]. now apply negb_true_iff.
Qed.

Lemma resolve_plain (s : string) : Lite.table_name_ok s = true -> Lite.resolve s = Some s.
Proof. intros H. unfold Lite.resolve. now rewrite H. Qed.

Lemma split_dq_app (t rest : string) :
  all_chars (fun c => negb (Ascii.eqb c (ascii_of_nat 34))) t = true ->
  Lite.split_dq (t ++ dq ++ rest) = Some (t, rest).
Proof.
  induction t as [|c t IH]; intros H; [reflexivity|].
  cbn [all_chars] in H. apply andb_prop in H as [H1 H2].
  apply negb_true_iff in H1. cbn [String.append Lite.split_dq].
  rewrite H1, (IH H2). reflexivity.
Qed.

Lemma quoted_dq (s : string) : Lite.quoted (dq ++ s) = Lite.split_dq s.
Proof. reflexivity. Qed.

Lemma strip_suffix_eq (suf s : string) :
  Lite.strip_suffix suf s =
  if String.eqb s suf then Some EmptyString
  else match s with
       | EmptyString => None
       | String c r => option_map (String c) (Lite.strip_suffix suf r)
       end.
Proof. destruct s; reflexivity. Qed.

Lemma eqb_longer (c : ascii) (t s : string) : String.eqb (String c (t ++ s)) s = false.
Proof.
  apply not_true_is_false. intros H. apply String.eqb_eq in H.
  apply (f_equal String.length) in H. cbn [String.length] in H.
  rewrite length_app in H. lia.
Qed.

Lemma strip_suffix_app (t suf : string) : Lite.strip_suffix suf (t ++ suf) = Some t.
Proof.
  induction t as [|c t IH].
  - rewrite strip_suffix_eq. cbn [String.append]. now rewrite String.eqb_refl.
  - rewrite strip_suffix_eq. cbn [String.append]. rewrite eqb_longer.
    cbn iota. rewrite IH. reflexivity.
Qed.

Lemma digit_is_digit (n : Z) : Lite.is_digit (digit (n mod 10)) = true.
Proof.
  unfold digit. assert (Hb := Z.mod_pos_bound n 10 ltac:(lia)).
  assert (Hk : (Z.to_nat (n mod 10) < 10)%nat) by lia.
  revert Hk. generalize (Z.to_nat (n mod 10)). intros k Hk.
  do 10 (destruct k as [|k]; [reflexivity|]). lia.
Qed.

Lemma digits_fuel_digits (fuel : nat) :
  forall n acc, all_chars Lite.is_digit acc = true ->
  all_chars Lite.is_digit (digits_fuel fuel n acc) = true.
Proof.
  induction fuel as [|f IH]; intros n acc H; cbn [digits_fuel]; [exact H|].
  assert (H' : all_chars Lite.is_digit (String (digit (n mod 10)) acc) = true)
    by (cbn [all_chars]; rewrite digit_is_digit, H; reflexivity).
  destruct (n <? 10)%Z; auto.
Qed.

Lemma txname_ident (n : Z) : (0 <= n)%Z -> Lite.plain_ident (txname_of n) = true.
Proof.
  intros Hn. unfold txname_of, sprintf_d.
  replace (n <? 0)%Z with false by (symmetry; apply Z.ltb_ge; lia).
  assert (D := digits_fuel_digits 20 n "" eq_refl).
  revert D. generalize (digits_fuel 20 n ""). intros ds D.
  assert (I : all_chars Lite.ident_char ds = true).
  { revert D. apply all_chars_impl. intros c Hc. unfold Lite.ident_char.
    rewrite Hc, orb_true_r. reflexivity. }
  simpl. rewrite I. reflexivity.
Qed.

Lemma wrap64_small (x : Z) : (0 <= x + 2 ^ 63 < 2 ^ 64)%Z -> wrap64 x = x.
Proof. intros H. unfold wrap64. rewrite Z.mod_small by exact H. lia. Qed.

Lemma name_eq_refl (s : string) : Lite.name_eq s s = true.
Proof. unfold Lite.name_eq. apply String.eqb_refl. Qed.

Lemma find_table_set (n : string) (r r0 : list (Z * bool)) (ts : Lite.Tables) :
  Lite.find_table n ts = Some r0 -> Lite.find_table n (Lite.set_rows n r ts) = Some r.
Proof.
  induction ts as [|[m rm] ts IH]; [discriminate|]. cbn [Lite.find_table Lite.set_rows].
  destruct (Lite.name_eq m n) eqn:Em; cbn [Lite.find_table]; rewrite Em; auto.
Qed.

Lemma set_rows_twice (n : string) (r r' : list (Z * bool)) (ts : Lite.Tables) :
  Lite.set_rows n r (Lite.set_rows n r' ts) = Lite.set_rows n r ts.
Proof.
  induction ts as [|[m rm] ts IH]; [reflexivity|]. cbn [Lite.set_rows].
  destruct (Lite.name_eq m n) eqn:Em; cbn [Lite.set_rows]; rewrite Em; [reflexivity|].
  now rewrite IH.
Qed.

Lemma find_table_none_filter (n : string) (ts : Lite.Tables) :
  Lite.find_table n ts = None -> filter (fun t => String.eqb (fst t) n) ts = [].
Proof.
  induction ts as [|[m rm] ts IH]; [reflexivity|]. cbn [Lite.find_table filter fst].
  destruct (Lite.name_eq m n) eqn:Em; [discriminate|]. intros H.
  destruct (String.eqb m n) eqn:Eq; [|exact (IH H)].
  apply String.eqb_eq in Eq. subst m. rewrite name_eq_refl in Em. discriminate Em.
Qed.

Lemma lite_exec_stmt (c : ascii) (rest : string) (d : Lite.LDB) (args : list Arg) :
  no_semi (String c rest) = true -> Toy.is_space c = false ->
  Lite.engine_exec d (String c rest) args = Lite.stmt d (String c rest) args.
Proof.
  intros Hs Hc. unfold Lite.engine_exec. rewrite split_no_semi by exact Hs.
  cbn [String.append Lite.stmts Toy.trim_left]. rewrite Hc.
  cbn [String.eqb]. destruct (Lite.stmt d (String c rest) args) as [d' [e|]]; reflexivity.
Qed.

Lemma lite_exec_app (c : ascii) (p t : string) (d : Lite.LDB) (args : list Arg) :
  no_semi (String c p ++ t) = true -> Toy.is_space c = false ->
  Lite.engine_exec d (String c p ++ t) args = Lite.stmt d (String c p ++ t) args.
Proof. apply lite_exec_stmt. Qed.

Lemma lite_savepoint (d : Lite.LDB) (t : string) :
  Lite.plain_ident t = true ->
  Lite.stmt d ("SAVEPOINT " ++ t) [] =
  (Lite.mkLDB (Lite.tables d) ((t, Lite.tables d) :: Lite.sps d)
     (Lite.savepoint_txn (Lite.txn d)) (Lite.excl d), None).
Proof. intros H. unfold Lite.stmt. now rewrite prefix_app, after_app, H. Qed.

Lemma lite_release (d : Lite.LDB) (t : string) (ts : Lite.Tables) l :
  Lite.plain_ident t = true -> Lite.sps d = (t, ts) :: l ->
  Lite.stmt d ("RELEASE " ++ t) [] =
  (Lite.mkLDB (Lite.tables d) l (Lite.close_if_outermost l (Lite.txn d)) (Lite.excl d), None).
Proof.
  intros H Hs. unfold Lite.stmt. rewrite prefix_app, after_app, H, Hs.
  cbn [Lite.find_sp]. rewrite name_eq_refl. reflexivity.
Qed.

Lemma lite_rollback (d : Lite.LDB) (t : string) (ts : Lite.Tables) l :
  Lite.plain_ident t = true -> Lite.sps d = (t, ts) :: l ->
  Lite.stmt d ("ROLLBACK TO " ++ t) [] =
  (Lite.mkLDB ts ((t, ts) :: l) (Lite.txn d) (Lite.excl d), None).
Proof.
  intros H Hs. unfold Lite.stmt. rewrite prefix_app, after_app, H, Hs.
  cbn [Lite.find_sp]. rewrite name_eq_refl. reflexivity.
Qed.

Lemma lite_delete (d : Lite.LDB) (n : string) :
  Lite.table_name_ok n = true ->
  Lite.stmt d ("DELETE FROM " ++ n) [] =
  match Lite.find_table n (Lite.tables d) with
  | Some _ => (Lite.with_tables d (Lite.set_rows n [] (Lite.tables d)), None)
  | None => (d, Some ("no such table: " ++ n))
  end.
Proof.
  intros H. unfold Lite.stmt. rewrite prefix_app, after_app, (resolve_plain n H).
  reflexivity.
Qed.

Lemma lite_insert (d : Lite.LDB) (n : string) (v : Z) (b : bool) :
  Lite.table_name_ok n = true -> Lite.find_table n (Lite.tables d) = Some [] ->
  Lite.stmt d ("INSERT INTO " ++ n ++ insert_tail) [AInt v; ABool b] =
  (Lite.with_tables d (Lite.set_rows n [(v, b)] (Lite.tables d)), None).
Proof.
  intros H Hf. unfold Lite.stmt.
  rewrite prefix_app, after_app, strip_suffix_app, (resolve_plain n H), Hf.
  reflexivity.
Qed.

Lemma lite_create (d : Lite.LDB) (n : string) :
  Lite.table_name_ok n = true ->
  Lite.stmt d ("CREATE TABLE " ++ n ++ create_tail) [] =
  match Lite.find_table n (Lite.tables d) with
  | Some _ => (d, Some ("table " ++ n ++ " already exists"))
  | None => (Lite.with_tables d (Lite.tables d ++ [(n, [])])%list, None)
  end.
Proof.
  intros H. unfold Lite.stmt.
  rewrite prefix_app, after_app, strip_suffix_app, (resolve_plain n H).
  reflexivity.
Qed.

Lemma lite_pragma (d : Lite.LDB) :
  Lite.engine_exec d "PRAGMA locking_mode = EXCLUSIVE" [] =
  (Lite.mkLDB (Lite.tables d) (Lite.sps d) (Lite.txn d) true, None).
Proof. reflexivity. Qed.

Lemma lite_begin (d : Lite.LDB) :
  Lite.engine_exec d "BEGIN EXCLUSIVE" [] =
  match Lite.txn d with
  | None => (Lite.mkLDB (Lite.tables d) (Lite.sps d) (Some Lite.ByBegin) (Lite.excl d), None)
  | Some _ => (d, Some "cannot start a transaction within a transaction")
  end.
Proof. destruct d as [t s [k|] x]; reflexivity. Qed.

Lemma lite_commit (d : Lite.LDB) (k : Lite.TxKind) :
  Lite.txn d = Some k ->
  Lite.engine_exec d "COMMIT" [] =
  (Lite.mkLDB (Lite.tables d) [] None (Lite.excl d), None).
Proof. destruct d as [t s x e]. cbn [Lite.txn]. intros ->. reflexivity. Qed.

Section LiteExec.

Variable st : St Lite.LDB.
Let tbl := migrationsTable (drv st).

Lemma lite_exec_savepoint (t : string) :
  Lite.plain_ident t = true ->
  exec Lite.engine_exec ("SAVEPOINT " ++ t) [] st =
  (mkSt (drv st)
     (Lite.mkLDB (Lite.tables (dbst st)) ((t, Lite.tables (dbst st)) :: Lite.sps (dbst st))
        (Lite.savepoint_txn (Lite.txn (dbst st))) (Lite.excl (dbst st)))
     (fs st) (log st ++ ["SAVEPOINT " ++ t]), None).
Proof.
  intros Hp.
  rewrite exec_no_dollar by (rewrite no_dollar_app, (plain_no_dollar _ Hp); reflexivity).
  rewrite lite_exec_app by (try rewrite no_semi_app, (plain_no_semi _ Hp); reflexivity).
  now rewrite lite_savepoint.
Qed.

Lemma lite_exec_release (t : string) (ts : Lite.Tables) l :
  Lite.plain_ident t = true -> Lite.sps (dbst st) = (t, ts) :: l ->
  exec Lite.engine_exec ("RELEASE " ++ t) [] st =
  (mkSt (drv st)
     (Lite.mkLDB (Lite.tables (dbst st)) l
        (Lite.close_if_outermost l (Lite.txn (dbst st))) (Lite.excl (dbst st)))
     (fs st) (log st ++ ["RELEASE " ++ t]), None).
Proof.
  intros Hp Hs.
  rewrite exec_no_dollar by (rewrite no_dollar_app, (plain_no_dollar _ Hp); reflexivity).
  rewrite lite_exec_app by (try rewrite no_semi_app, (plain_no_semi _ Hp); reflexivity).
  now rewrite (lite_release _ _ _ _ Hp Hs).
Qed.

Lemma lite_exec_rollback (t : string) (ts : Lite.Tables) l :
  Lite.plain_ident t = true -> Lite.sps (dbst st) = (t, ts) :: l ->
  exec Lite.engine_exec ("ROLLBACK TO " ++ t) [] st =
  (mkSt (drv st)
     (Lite.mkLDB ts ((t, ts) :: l) (Lite.txn (dbst st)) (Lite.excl (dbst st)))
     (fs st) (log st ++ ["ROLLBACK TO " ++ t]), None).
Proof.
  intros Hp Hs.
  rewrite exec_no_dollar by (rewrite no_dollar_app, (plain_no_dollar _ Hp); reflexivity).
  rewrite lite_exec_app by (try rewrite no_semi_app, (plain_no_semi _ Hp); reflexivity).
  now rewrite (lite_rollback _ _ _ _ Hp Hs).
Qed.

Hypothesis Htbl : Lite.table_name_ok tbl = true.

Lemma lite_exec_delete :
  exec Lite.engine_exec delete_stmt [] st =
  match Lite.find_table tbl (Lite.tables (dbst st)) with
  | Some _ =>
      (mkSt (drv st) (Lite.with_tables (dbst st) (Lite.set_rows tbl [] (Lite.tables (dbst st))))
         (fs st) (log st ++ ["DELETE FROM " ++ tbl]), None)
  | None =>
      (mkSt (drv st) (dbst st) (fs st) (log st ++ ["DELETE FROM " ++ tbl]),
       Some (DBError (OEngine ("no such table: " ++ tbl)) ("DELETE FROM " ++ tbl)))
  end.
Proof.
  destruct (table_name_plain _ Htbl) as [P _].
  unfold exec. fold tbl. rewrite replace_delete.
  rewrite lite_exec_app by (try rewrite !no_semi_app, (plain_no_semi _ P); reflexivity).
  rewrite (lite_delete _ _ Htbl). destruct (Lite.find_table tbl _); reflexivity.
Qed.

Lemma lite_exec_insert (v : Z) (b : bool) :
  Lite.find_table tbl (Lite.tables (dbst st)) = Some [] ->
  exec Lite.engine_exec insert_stmt [AInt v; ABool b] st =
  (mkSt (drv st) (Lite.with_tables (dbst st) (Lite.set_rows tbl [(v, b)] (Lite.tables (dbst st))))
     (fs st) (log st ++ ["INSERT INTO " ++ tbl ++ insert_tail]), None).
Proof.
  intros Hf. destruct (table_name_plain _ Htbl) as [P _].
  unfold exec. fold tbl. rewrite replace_insert.
  rewrite lite_exec_app by (try rewrite !no_semi_app, (plain_no_semi _ P); reflexivity).
  now rewrite (lite_insert _ _ v b Htbl Hf).
Qed.

Lemma lite_exec_create :
  let c := ("CREATE TABLE " ++ tbl ++ create_tail)%string in
  exec Lite.engine_exec create_stmt [] st =
  match Lite.find_table tbl (Lite.tables (dbst st)) with
  | Some _ =>
      (mkSt (drv st) (dbst st) (fs st) (log st ++ [c]),
       Some (DBError (OEngine ("table " ++ tbl ++ " already exists")) c))
  | None =>
      (mkSt (drv st) (Lite.with_tables (dbst st) (Lite.tables (dbst st) ++ [(tbl, [])])%list)
         (fs st) (log st ++ [c]), None)
  end.
Proof.
  intros c. destruct (table_name_plain _ Htbl) as [P _].
  unfold exec. fold tbl. rewrite replace_create.
  rewrite lite_exec_app by (try rewrite !no_semi_app, (plain_no_semi _ P); reflexivity).
  rewrite (lite_create _ _ Htbl). destruct (Lite.find_table tbl _); reflexivity.
Qed.

End LiteExec.

(** [Version] on the named engine model, for a plain table name. *)
Lemma lite_Version (st : St Lite.LDB) :
  Lite.table_name_ok (migrationsTable (drv st)) = true ->
  snd (Version Lite.engine_query st) =
  match Lite.find_table (migrationsTable (drv st)) (Lite.tables (dbst st)) with
  | Some [] => (NilVersion, false, None)
  | Some ((v, b) :: _) => (v, b, None)
  | None =>
      (0%Z, false,
       Some (DBError (OEngine ("no such table: " ++ migrationsTable (drv st)))
               (version_query (migrationsTable (drv st)))))
  end.
Proof.
  intros H. destruct (table_name_plain _ H) as [P R].
  destruct (plain_ident_chars _ P) as [_ [c [r Hcr]]].
  unfold Version, bind, get_drv, queryRow, ret. cbn [drv dbst].
  unfold Lite.engine_query, version_query.
  rewrite prefix_app, after_app, quoted_dq, (split_dq_app _ _ (plain_no_dq _ P)).
  assert (Hne : String.eqb (migrationsTable (drv st)) "" = false) by (rewrite Hcr; reflexivity).
  rewrite String.eqb_refl, R, Hne. cbn [andb negb].
  destruct (Lite.find_table _ _) as [[|[v b] rest]|]; reflexivity.
Qed.

(** [SetVersion] on the named engine model, for a plain table name that
    exists, and a transaction counter that does not wrap. *)
Lemma lite_SetVersion (v : Z) (b : bool) (st : St Lite.LDB) (r0 : list (Z * bool)) :
  Lite.table_name_ok (migrationsTable (drv st)) = true ->
  Lite.find_table (migrationsTable (drv st)) (Lite.tables (dbst st)) = Some r0 ->
  (-1 <= txid (drv st) < 2 ^ 63 - 1)%Z ->
  exists st',
    SetVersion Lite.engine_exec v b st = (st', None) /\
    drv st' = set_txid (drv st) (txid (drv st) + 1) /\
    Lite.tables (dbst st') =
      Lite.set_rows (migrationsTable (drv st)) (if (0 <=? v)%Z then [(v, b)] else [])
        (Lite.tables (dbst st)) /\
    Lite.sps (dbst st') = Lite.sps (dbst st) /\
    Lite.txn (dbst st') =
      Lite.close_if_outermost (Lite.sps (dbst st)) (Lite.savepoint_txn (Lite.txn (dbst st))).
Proof.
  intros Ht Hf Hr. unfold SetVersion. rewrite transactionally_unfold. cbv zeta.
  rewrite (wrap64_small (txid (drv st) + 1)) by lia.
  assert (Pn := txname_ident (txid (drv st) + 1) ltac:(lia)).
  revert Pn. generalize (txname_of (txid (drv st) + 1)). intros nm Pn.
  rewrite lite_exec_savepoint by exact Pn.
  cbv iota. unfold check, bind.
  rewrite lite_exec_delete by exact Ht.
  cbn [drv dbst fs log migrationsTable set_txid Lite.tables].
  rewrite Hf. cbv iota.
  assert (Hf' : Lite.find_table (migrationsTable (drv st))
                  (Lite.set_rows (migrationsTable (drv st)) [] (Lite.tables (dbst st))) = Some [])
    by exact (find_table_set _ _ _ _ Hf).
  destruct (0 <=? v)%Z.
  - rewrite lite_exec_insert by (exact Ht || exact Hf').
    cbv iota.
    erewrite lite_exec_release; [| exact Pn | reflexivity].
    eexists. split; [reflexivity|].
    cbn [drv dbst Lite.tables Lite.sps Lite.txn Lite.with_tables].
    split; [reflexivity|]. split; [apply set_rows_twice|]. split; reflexivity.
  - unfold ret.
    erewrite lite_exec_release; [| exact Pn | reflexivity].
    eexists. split; [reflexivity|].
    cbn [drv dbst Lite.tables Lite.sps Lite.txn Lite.with_tables].
    split; [reflexivity|]. split; [reflexivity|]. split; reflexivity.
Qed.

(** ** Claims *)

(** C1 (code_bug).  [Run] hands the whole script to one [exec] call, with
    no savepoint around it: for every engine it is exactly [exec buf].  On
    the engine model, a script whose first statement is valid and whose
    second is not fails, and the table created by the first statement
    stays in the database. *)
Theorem Run_without_savepoint :
  (forall (DB Err : Type) (E : DB -> string -> list Arg -> DB * option Err)
          (buf : string) (st : St DB),
     Run E (RData buf) st = exec E buf [] st) /\
  (let st1 := fst (Lock Toy.engine_exec fresh_state) in
   let res := Run Toy.engine_exec (RData two_stmt_script) st1 in
   Toy.user (dbst st1) = [] /\
   snd res = Some (DBError (OEngine "syntax error") two_stmt_script) /\
   Toy.user (dbst (fst res)) = ["CREATE TABLE t(x int)"] /\
   log (fst res) = (log st1 ++ [two_stmt_script])%list).
Proof.
  split.
  - intros. apply Run_exec.
  - vm_compute. repeat split.
Qed.

(** C2 (code_bug).  [Lock] sets [locked] before it runs its two
    statements, so after every call the flag is set, failure or not.
    When [BEGIN EXCLUSIVE] fails because another process holds the lock,
    [Lock] returns that error, the driver stays [locked] and the next
    [Lock] answers [ErrLocked]. *)
Theorem Lock_failure_leaves_locked :
  (forall (DB Err : Type) (E : DB -> string -> list Arg -> DB * option Err)
          (st : St DB),
     locked (drv (fst (Lock E st))) = true) /\
  (let res := Lock busy_exec fresh_state in
   locked (drv fresh_state) = false /\
   snd res = Some (DBError (OEngine "database is locked") "BEGIN EXCLUSIVE") /\
   locked (drv (fst res)) = true /\
   snd (Lock busy_exec (fst res)) = Some ErrLocked).
Proof.
  split.
  - intros. apply Lock_sets_locked.
  - vm_compute. repeat split.
Qed.

(** C3 (code_bug).  [Unlock] never changes the driver struct, so after a
    successful commit the driver is still [locked] and a second [Lock] on
    the same instance returns [ErrLocked]. *)
Theorem Unlock_keeps_locked :
  (forall (DB Err : Type) (E : DB -> string -> list Arg -> DB * option Err)
          (st : St DB),
     drv (fst (Unlock E st)) = drv st) /\
  (let st1 := fst (Lock Toy.engine_exec fresh_state) in
   let res := Unlock Toy.engine_exec st1 in
   snd (Lock Toy.engine_exec fresh_state) = None /\
   snd res = None /\
   Toy.intx (dbst (fst res)) = false /\
   locked (drv (fst res)) = true /\
   snd (Lock Toy.engine_exec (fst res)) = Some ErrLocked).
Proof.
  split.
  - intros. apply Unlock_drv.
  - vm_compute. repeat split.
Qed.

(** C4 (corrected), counterexample.  A caller script that contains the
    placeholder is not handed to the engine as it is. *)
Lemma Run_script_is_substituted :
  log (fst (Run Toy.engine_exec (RData placeholder_script) fresh_state))
  <> (log fresh_state ++ [placeholder_script])%list.
Proof. vm_compute. discriminate. Qed.

(** C4 (corrected), amended.  [Run] hands the engine exactly one statement
    text: the script with every occurrence of the placeholder replaced by
    the configured table name.  A script that does not contain the
    placeholder is handed over unchanged. *)
Theorem Run_hands_substituted_script
  {DB Err : Type} (E : DB -> string -> list Arg -> DB * option Err)
  (buf : string) (st : St DB) :
  log (fst (Run E (RData buf) st)) =
    (log st ++ [strings_Replace buf MIGRATIONS_TABLE (migrationsTable (drv st))])%list /\
  (strings_Contains buf MIGRATIONS_TABLE = false ->
   log (fst (Run E (RData buf) st)) = (log st ++ [buf])%list).
Proof.
  rewrite Run_exec, exec_log. split; [reflexivity|].
  intros H. now rewrite Replace_id.
Qed.

Lemma Run_hands_substituted_script_witness :
  strings_Contains two_stmt_script MIGRATIONS_TABLE = false /\
  log (fst (Run Toy.engine_exec (RData two_stmt_script) fresh_state))
  = (log fresh_state ++ [two_stmt_script])%list.
Proof.
  split; [reflexivity|].
  apply (proj2 (Run_hands_substituted_script Toy.engine_exec two_stmt_script fresh_state)).
  reflexivity.
Defined.



(** C6 (code_bug).  [Version] reads the bookkeeping table under its
    double-quoted name, while every statement [exec] hands the engine
    ([CREATE TABLE], [DELETE FROM], [INSERT INTO]) has the name unquoted.
    On the named engine model, for a plain table name whose table exists
    and a transaction counter that does not wrap, the round trip holds:
    [SetVersion v d] succeeds, and [Version] then returns [(v, d, nil)]
    when [v >= 0], while for [v < 0] the table is left empty and
    [Version] returns [(-1, false, nil)]; for every engine, [Version] on
    an empty result set returns [(-1, false, nil)].  With
    [x-migrations-table=main.schema_migrations] the round trip fails:
    [Open] succeeds and creates the table [schema_migrations],
    [SetVersion 5 false] succeeds and writes [(5, false)] into it, and
    [Version] then fails with [no such table: main.schema_migrations]. *)
Theorem SetVersion_Version_roundtrip :
  (forall (v : Z) (b : bool) (st : St Lite.LDB) (r0 : list (Z * bool)),
     Lite.table_name_ok (migrationsTable (drv st)) = true ->
     Lite.find_table (migrationsTable (drv st)) (Lite.tables (dbst st)) = Some r0 ->
     (-1 <= txid (drv st) < 2 ^ 63 - 1)%Z ->
     exists st',
       SetVersion Lite.engine_exec v b st = (st', None) /\
       ((0 <= v)%Z -> snd (Version Lite.engine_query st') = (v, b, None)) /\
       ((v < 0)%Z ->
        Lite.find_table (migrationsTable (drv st')) (Lite.tables (dbst st')) = Some [] /\
        snd (Version Lite.engine_query st') = (NilVersion, false, None))) /\
  (forall (DB Err : Type) (Q : DB -> string -> list Arg -> Err + list (list Value))
          (st : St DB),
     Q (dbst st) (version_query (migrationsTable (drv st))) [] = inr [] ->
     snd (Version Q st) = (NilVersion, false, None)) /\
  (open_qualified = (Some qualified_driver, None) /\
   Lite.tables (dbst qualified_driver) = [("schema_migrations", [])] /\
   let st1 := fst (SetVersion Lite.engine_exec 5 false qualified_driver) in
   snd (SetVersion Lite.engine_exec 5 false qualified_driver) = None /\
   Lite.tables (dbst st1) = [("schema_migrations", [(5%Z, false)])] /\
   snd (Version Lite.engine_query st1) =
     (0%Z, false, Some (DBError (OEngine "no such table: main.schema_migrations")
                          (version_query "main.schema_migrations")))).
Proof.
  split; [|split].
  - intros v b st r0 Ht Hf Hr.
    destruct (lite_SetVersion v b st r0 Ht Hf Hr) as [st' [H1 [D [T _]]]].
    assert (Mt : migrationsTable (drv st') = migrationsTable (drv st))
      by (rewrite D; reflexivity).
    assert (Ht' : Lite.table_name_ok (migrationsTable (drv st')) = true)
      by (rewrite Mt; exact Ht).
    assert (F : Lite.find_table (migrationsTable (drv st')) (Lite.tables (dbst st')) =
                Some (if (0 <=? v)%Z then [(v, b)] else []))
      by (rewrite Mt, T; exact (find_table_set _ _ _ _ Hf)).
    exists st'. split; [exact H1|]. split.
    + intros Hv. rewrite (lite_Version st' Ht'), F.
      replace (0 <=? v)%Z with true by (symmetry; apply Z.leb_le; lia). reflexivity.
    + intros Hv. replace (0 <=? v)%Z with false in F by (symmetry; apply Z.leb_gt; lia).
      split; [exact F|]. rewrite (lite_Version st' Ht'), F. reflexivity.
  - intros DB Err Q st H.
    unfold Version, bind, get_drv, queryRow, ret. cbn [drv dbst].
    rewrite H. reflexivity.
  - split; [vm_compute; reflexivity|]. split; [vm_compute; reflexivity|].
    cbv zeta. split; [vm_compute; reflexivity|]. split; vm_compute; reflexivity.
Qed.

Lemma SetVersion_Version_roundtrip_witness :
  (Lite.table_name_ok (migrationsTable (drv lite_fresh)) = true /\
   Lite.find_table (migrationsTable (drv lite_fresh)) (Lite.tables (dbst lite_fresh)) = Some [] /\
   (-1 <= txid (drv lite_fresh) < 2 ^ 63 - 1)%Z /\
   exists st',
     SetVersion Lite.engine_exec 5 false lite_fresh = (st', None) /\
     ((0 <= 5)%Z -> snd (Version Lite.engine_query st') = (5%Z, false, None)) /\
     ((5 < 0)%Z ->
      Lite.find_table (migrationsTable (drv st')) (Lite.tables (dbst st')) = Some [] /\
      snd (Version Lite.engine_query st') = (NilVersion, false, None))) /\
  (exists st',
     SetVersion Lite.engine_exec (-1) true lite_fresh = (st', None) /\
     ((0 <= -1)%Z -> snd (Version Lite.engine_query st') = ((-1)%Z, true, None)) /\
     ((-1 < 0)%Z ->
      Lite.find_table (migrationsTable (drv st')) (Lite.tables (dbst st')) = Some [] /\
      snd (Version Lite.engine_query st') = (NilVersion, false, None))) /\
  (Lite.engine_query (dbst lite_fresh)
     (version_query (migrationsTable (drv lite_fresh))) [] = inr [] /\
   snd (Version Lite.engine_query lite_fresh) = (NilVersion, false, None)).
Proof.
  split; [|split].
  - split; [reflexivity|]. split; [reflexivity|]. split; [cbn; lia|].
    apply (proj1 SetVersion_Version_roundtrip 5%Z false lite_fresh []);
      [reflexivity | reflexivity | cbn; lia].
  - apply (proj1 SetVersion_Version_roundtrip (-1)%Z true lite_fresh []);
      [reflexivity | reflexivity | cbn; lia].
  - split; [reflexivity|].
    apply (proj1 (proj2 SetVersion_Version_roundtrip) _ _ Lite.engine_query lite_fresh).
    reflexivity.
Defined.

(** C7.  When the savepoint is created and the action then fails with
    [e], [transactionally] issues [ROLLBACK TO] the same savepoint as its
    last statement and returns [e], whatever the rollback returns. *)
Theorem transactionally_rolls_back_on_failure
  {DB Err : Type} (E : DB -> string -> list Arg -> DB * option Err)
  (thunk : M DB (option (Error Err))) (st stB stC : St DB) (e : Error Err) :
  let n := wrap64 (txid (drv st) + 1) in
  exec E ("SAVEPOINT " ++ txname_of n) []
    (mkSt (set_txid (drv st) n) (dbst st) (fs st) (log st)) = (stB, None) ->
  thunk stB = (stC, Some e) ->
  transactionally E thunk st =
    (fst (exec E ("ROLLBACK TO " ++ txname_of n) [] stC), Some e) /\
  log (fst (transactionally E thunk st)) =
    (log stC ++ [("ROLLBACK TO " ++ txname_of n)%string])%list.
Proof.
  intros n HB HC.
  assert (Ht : transactionally E thunk st =
               (fst (exec E ("ROLLBACK TO " ++ txname_of n) [] stC), Some e)).
  { rewrite transactionally_unfold. cbv zeta. fold n. rewrite HB, HC. reflexivity. }
  split; [exact Ht|]. rewrite Ht. cbn [fst].
  destruct (txname_plain n) as [_ Pd].
  rewrite exec_no_dollar by (rewrite no_dollar_app, Pd; reflexivity).
  reflexivity.
Qed.

Lemma transactionally_rolls_back_on_failure_witness :
  exec Toy.engine_exec ("SAVEPOINT " ++ txname_of (wrap64 (txid (drv fresh_state) + 1))) []
    (mkSt (set_txid (drv fresh_state) (wrap64 (txid (drv fresh_state) + 1)))
       (dbst fresh_state) (fs fresh_state) (log fresh_state)) = (tx_saved, None) /\
  failing_thunk tx_saved =
    (fst (failing_thunk tx_saved), Some (DBError (OEngine "syntax error") "INSRT BOGUS")) /\
  transactionally Toy.engine_exec failing_thunk fresh_state =
    (fst (exec Toy.engine_exec ("ROLLBACK TO " ++ txname_of (wrap64 (txid (drv fresh_state) + 1))) []
            (fst (failing_thunk tx_saved))),
     Some (DBError (OEngine "syntax error") "INSRT BOGUS")) /\
  log (fst (transactionally Toy.engine_exec failing_thunk fresh_state)) =
    (log (fst (failing_thunk tx_saved)) ++
     [("ROLLBACK TO " ++ txname_of (wrap64 (txid (drv fresh_state) + 1)))%string])%list.
Proof.
  split; [reflexivity|]. split; [reflexivity|].
  exact (transactionally_rolls_back_on_failure Toy.engine_exec failing_thunk fresh_state
           tx_saved (fst (failing_thunk tx_saved))
           (DBError (OEngine "syntax error") "INSRT BOGUS") eq_refl eq_refl).
Defined.

(** C8.  A second [Lock] without an [Unlock] in between returns
    [ErrLocked] and leaves the whole state, statement log included,
    unchanged; [Unlock] on an unlocked driver returns [nil] and leaves the
    whole state unchanged. *)
Theorem Lock_twice_and_stray_Unlock
  {DB Err : Type} (E : DB -> string -> list Arg -> DB * option Err) :
  (forall st : St DB,
     Lock E (fst (Lock E st)) = (fst (Lock E st), Some ErrLocked)) /\
  (forall st : St DB, locked (drv st) = false -> Unlock E st = (st, None)).
Proof.
  split.
  - intros st. apply Lock_when_locked, Lock_sets_locked.
  - intros st L. unfold Unlock, bind, get_drv, ret. now rewrite L.
Qed.

Lemma Lock_twice_and_stray_Unlock_witness :
  locked (drv fresh_state) = false /\
  Unlock Toy.engine_exec fresh_state = (fresh_state, None).
Proof.
  split; [reflexivity|].
  apply (proj2 (Lock_twice_and_stray_Unlock Toy.engine_exec) fresh_state).
  reflexivity.
Defined.

(** C9.  When the savepoint is created and the action succeeds,
    [transactionally] issues [RELEASE] as its last statement and returns
    [nil] whatever the release returns; no rollback is issued. *)
Theorem transactionally_ignores_release_result
  {DB Err : Type} (E : DB -> string -> list Arg -> DB * option Err)
  (thunk : M DB (option (Error Err))) (st stB stC : St DB) :
  let n := wrap64 (txid (drv st) + 1) in
  exec E ("SAVEPOINT " ++ txname_of n) []
    (mkSt (set_txid (drv st) n) (dbst st) (fs st) (log st)) = (stB, None) ->
  thunk stB = (stC, None) ->
  transactionally E thunk st =
    (fst (exec E ("RELEASE " ++ txname_of n) [] stC), None) /\
  log (fst (transactionally E thunk st)) =
    (log stC ++ [("RELEASE " ++ txname_of n)%string])%list.
Proof.
  intros n HB HC.
  assert (Ht : transactionally E thunk st =
               (fst (exec E ("RELEASE " ++ txname_of n) [] stC), None)).
  { rewrite transactionally_unfold. cbv zeta. fold n. rewrite HB, HC. reflexivity. }
  split; [exact Ht|]. rewrite Ht. cbn [fst].
  destruct (txname_plain n) as [_ Pd].
  rewrite exec_no_dollar by (rewrite no_dollar_app, Pd; reflexivity).
  reflexivity.
Qed.

Lemma transactionally_ignores_release_result_witness :
  exec Toy.engine_exec ("SAVEPOINT " ++ txname_of (wrap64 (txid (drv fresh_state) + 1))) []
    (mkSt (set_txid (drv fresh_state) (wrap64 (txid (drv fresh_state) + 1)))
       (dbst fresh_state) (fs fresh_state) (log fresh_state)) = (tx_saved, None) /\
  releasing_thunk tx_saved = (fst (releasing_thunk tx_saved), None) /\
  snd (exec Toy.engine_exec "RELEASE txn_1" [] (fst (releasing_thunk tx_saved)))
    = Some (DBError (OEngine "no such savepoint") "RELEASE txn_1") /\
  transactionally Toy.engine_exec releasing_thunk fresh_state =
    (fst (exec Toy.engine_exec ("RELEASE " ++ txname_of (wrap64 (txid (drv fresh_state) + 1))) []
            (fst (releasing_thunk tx_saved))), None) /\
  log (fst (transactionally Toy.engine_exec releasing_thunk fresh_state)) =
    (log (fst (releasing_thunk tx_saved)) ++
     [("RELEASE " ++ txname_of (wrap64 (txid (drv fresh_state) + 1)))%string])%list.
Proof.
  split; [reflexivity|]. split; [reflexivity|]. split; [reflexivity|].
  exact (transactionally_ignores_release_result Toy.engine_exec releasing_thunk fresh_state
           tx_saved (fst (releasing_thunk tx_saved)) eq_refl eq_refl).
Defined.

(** C10.  [Drop] removes the file at [dbPath] and nothing else: the
    driver struct (handle, path, table name, lock flag, savepoint
    counter), the engine state and the statement log are unchanged,
    whether or not the removal succeeds. *)
Theorem Drop_changes_only_the_file {DB Err : Type} (st : St DB) :
  let res := @Drop DB Err st in
  drv (fst res) = drv st /\
  dbst (fst res) = dbst st /\
  log (fst res) = log st /\
  fs (fst res) =
    (if existsb (String.eqb (dbPath (drv st))) (fs st)
     then filter (fun p => negb (String.eqb (dbPath (drv st)) p)) (fs st)
     else fs st) /\
  (snd res = None <-> existsb (String.eqb (dbPath (drv st))) (fs st) = true).
Proof.
  cbv zeta. unfold Drop, bind, get_drv, os_Remove.
  destruct (existsb (String.eqb (dbPath (drv st))) (fs st));
    cbn; repeat split; try reflexivity; try discriminate; auto.
Qed.

(** ** Further properties of the driver *)

Lemma filter_removes (p : string) (l : list string) :
  existsb (String.eqb p) (filter (fun q => negb (String.eqb p q)) l) = false.
Proof.
  induction l as [|q l IH]; [reflexivity|]. cbn [filter].
  destruct (String.eqb p q) eqn:H; cbn [negb existsb]; [exact IH|].
  rewrite H, IH. reflexivity.
Qed.

Lemma query_values_absent (u : URL) (opt : string) :
  (forall kv, In kv (Query u) -> fst kv <> opt) -> query_values u opt = [].
Proof.
  unfold query_values. induction (Query u) as [|[k v] l IH]; intros H; [reflexivity|].
  cbn [filter]. destruct (String.eqb (fst (k, v)) opt) eqn:Ek.
  - apply String.eqb_eq in Ek. exfalso. apply (H (k, v)); [left; reflexivity | exact Ek].
  - apply IH. intros kv Hin. apply H. right. exact Hin.
Qed.

Lemma query_values_first (pre post : list (string * string)) (opt v : string) :
  (forall kv, In kv pre -> fst kv <> opt) ->
  map snd (filter (fun kv => String.eqb (fst kv) opt) (pre ++ (opt, v) :: post))
  = v :: map snd (filter (fun kv => String.eqb (fst kv) opt) post).
Proof.
  induction pre as [|[k w] pre IH]; intros H.
  - cbn. rewrite String.eqb_refl. reflexivity.
  - cbn [app filter]. destruct (String.eqb (fst (k, w)) opt) eqn:Ek.
    + apply String.eqb_eq in Ek. exfalso. apply (H (k, w)); [left; reflexivity | exact Ek].
    + apply IH. intros kv Hin. apply H. right. exact Hin.
Qed.

(** X1.  [getOptionWithDefault] returns the default when the option is
    absent from the query, and otherwise the value of its first
    occurrence, even when that value is empty and later occurrences
    follow. *)
Theorem getOptionWithDefault_first_or_default (u : URL) (opt dflt : string) :
  ((forall kv, In kv (Query u) -> fst kv <> opt) ->
   getOptionWithDefault u opt dflt = dflt) /\
  (forall pre v post,
     Query u = (pre ++ (opt, v) :: post)%list ->
     (forall kv, In kv pre -> fst kv <> opt) ->
     getOptionWithDefault u opt dflt = v).
Proof.
  split.
  - intros H. unfold getOptionWithDefault. now rewrite query_values_absent.
  - intros pre v post Hq Hpre. unfold getOptionWithDefault, query_values.
    rewrite Hq, query_values_first by exact Hpre. reflexivity.
Qed.

Lemma getOptionWithDefault_first_or_default_witness :
  ((forall kv, In kv (Query (mkURL "/tmp/m.db" [("mode", "rwc")])) ->
      fst kv <> "x-migrations-table") /\
   getOptionWithDefault (mkURL "/tmp/m.db" [("mode", "rwc")])
     "x-migrations-table" DefaultMigrationsTable = DefaultMigrationsTable) /\
  (Query (mkURL "/tmp/m.db" [("mode", "rwc"); ("x-migrations-table", "");
                             ("x-migrations-table", "other")])
   = ([("mode", "rwc")] ++ ("x-migrations-table", "")
      :: [("x-migrations-table", "other")])%list /\
   getOptionWithDefault
     (mkURL "/tmp/m.db" [("mode", "rwc"); ("x-migrations-table", "");
                         ("x-migrations-table", "other")])
     "x-migrations-table" DefaultMigrationsTable = "").
Proof.
  assert (Hm : forall kv, In kv [("mode", "rwc")] -> fst kv <> "x-migrations-table").
  { intros kv [<-|[]]. discriminate. }
  split; split.
  - exact Hm.
  - apply (proj1 (getOptionWithDefault_first_or_default _ _ _)). exact Hm.
  - reflexivity.
  - apply (proj2 (getOptionWithDefault_first_or_default _ _ _)
             [("mode", "rwc")] "" [("x-migrations-table", "other")]);
      [reflexivity | exact Hm].
Defined.

Section EnsureAndOpen.

Context {DB Err : Type}.
Variable E : DB -> string -> list Arg -> DB * option Err.
Variable catalog_query : DB -> string -> string -> Err + list (list Value).

Local Ltac frame_done :=
  split; [reflexivity | split; [reflexivity | exists []; reflexivity]].

Lemma ensureVersionTable_frame (st : St DB) :
  drv (fst (ensureVersionTable E catalog_query st)) = drv st /\
  fs (fst (ensureVersionTable E catalog_query st)) = fs st /\
  exists rest,
    log (fst (ensureVersionTable E catalog_query st)) =
    (log st ++ count_query :: rest)%list.
Proof.
  unfold ensureVersionTable, check, bind, get_drv, catalogRow, ret.
  cbn [drv dbst fs log].
  destruct (catalog_query (dbst st) count_query (migrationsTable (drv st)))
    as [e|[|[|v [|w row]] rows]]; try frame_done.
  destruct (scan_int v) as [c|]; [|frame_done].
  destruct (c =? 1)%Z; [frame_done|].
  unfold exec, bind, ret. cbn [drv dbst fs log].
  match goal with |- context [E ?a ?b ?c] => destruct (E a b c) as [d' [e'|]] end;
    cbn; (split; [reflexivity | split; [reflexivity |]]);
    eexists; rewrite <- app_assoc; reflexivity.
Qed.

(** X2.  When the catalog reports the bookkeeping table, or the catalog
    query fails, [ensureVersionTable] issues only the catalog query and
    changes nothing else; a failure comes back wrapped with the query
    text. *)
Theorem ensureVersionTable_existing_or_error (st : St DB) :
  let after := mkSt (drv st) (dbst st) (fs st) (log st ++ [count_query]) in
  (forall rest,
     catalog_query (dbst st) count_query (migrationsTable (drv st))
       = inr ([VInt 1] :: rest) ->
     ensureVersionTable E catalog_query st = (after, None)) /\
  (forall e,
     catalog_query (dbst st) count_query (migrationsTable (drv st)) = inl e ->
     ensureVersionTable E catalog_query st
       = (after, Some (DBError (OEngine e) count_query))).
Proof.
  cbv zeta. split.
  - intros rest H. unfold ensureVersionTable, bind, get_drv, catalogRow, ret.
    cbn [drv dbst]. rewrite H. reflexivity.
  - intros e H. unfold ensureVersionTable, bind, get_drv, catalogRow, ret.
    cbn [drv dbst]. rewrite H. reflexivity.
Qed.

(** X3.  When the catalog count is not 1, [ensureVersionTable] issues
    [CREATE TABLE] for the configured table name right after the catalog
    query, and returns the engine's answer to it. *)
Theorem ensureVersionTable_creates_missing_table (st : St DB) (c : Z)
  (rest : list (list Value)) :
  catalog_query (dbst st) count_query (migrationsTable (drv st))
    = inr ([VInt c] :: rest) ->
  c <> 1%Z ->
  let create := ("CREATE TABLE " ++ migrationsTable (drv st) ++ create_tail)%string in
  ensureVersionTable E catalog_query st =
    (mkSt (drv st) (fst (E (dbst st) create [])) (fs st)
       (log st ++ [count_query; create])%list,
     option_map (fun e => DBError (OEngine e) create) (snd (E (dbst st) create []))).
Proof.
  intros H Hc create.
  unfold ensureVersionTable, check, bind, get_drv, catalogRow, ret.
  cbn [drv dbst]. rewrite H. cbn [scan_int].
  apply Z.eqb_neq in Hc. rewrite Hc.
  unfold exec. cbn [drv dbst fs log]. rewrite replace_create. fold create.
  destruct (E (dbst st) create []) as [d' [e'|]]; cbn;
    rewrite <- app_assoc; reflexivity.
Qed.

(** X4.  A successful [Open] returns an unlocked driver with savepoint
    counter 0, the URL's path, and the table name from the first
    [x-migrations-table] option (the default when absent); the ping
    succeeded and the first statement of the new driver is the catalog
    query. *)
Theorem Open_success_state (connect : string -> DB) (ping : DB -> option Err)
  (h : nat) (files : list string) (u : URL) (st' : St DB) :
  Open E catalog_query connect ping h files (URIOk u) = (Some st', None) ->
  ping (connect (Path u)) = None /\
  drv st' = mkSqlite h (Path u)
              (getOptionWithDefault u "x-migrations-table" DefaultMigrationsTable)
              false 0 /\
  fs st' = files /\
  exists rest, log st' = count_query :: rest.
Proof.
  unfold Open. cbn [dbst].
  destruct (ping (connect (Path u))) as [e|]; [discriminate|].
  set (st0 := mkSt _ _ files []).
  destruct (ensureVersionTable_frame st0) as [D [F [rest L]]].
  destruct (ensureVersionTable E catalog_query st0) as [s1 [e|]]; [discriminate|].
  intros H. injection H as <-. cbn [fst] in D, F, L.
  split; [reflexivity|]. split; [exact D|]. split; [exact F|].
  exists rest. exact L.
Qed.

(** X5.  [Open] on a database whose catalog does not list the table
    issues exactly the catalog query and the [CREATE TABLE] for the
    configured name, and returns the new driver when that succeeds. *)
Theorem Open_creates_missing_table (connect : string -> DB)
  (ping : DB -> option Err) (h : nat) (files : list string) (u : URL)
  (c : Z) (rest : list (list Value)) :
  let tbl := getOptionWithDefault u "x-migrations-table" DefaultMigrationsTable in
  let create := ("CREATE TABLE " ++ tbl ++ create_tail)%string in
  ping (connect (Path u)) = None ->
  catalog_query (connect (Path u)) count_query tbl = inr ([VInt c] :: rest) ->
  c <> 1%Z ->
  snd (E (connect (Path u)) create []) = None ->
  Open E catalog_query connect ping h files (URIOk u) =
    (Some (mkSt (mkSqlite h (Path u) tbl false 0)
                (fst (E (connect (Path u)) create [])) files
                [count_query; create]), None).
Proof.
  intros tbl create Hp Hq Hc He.
  unfold Open. cbn [dbst]. rewrite Hp. fold tbl.
  rewrite (ensureVersionTable_creates_missing_table
             (mkSt (mkSqlite h (Path u) tbl false 0) (connect (Path u)) files [])
             c rest Hq Hc).
  cbn [drv dbst fs log migrationsTable]. fold create. rewrite He. reflexivity.
Qed.

End EnsureAndOpen.

Lemma ensureVersionTable_existing_or_error_witness :
  let st := fst (ensureVersionTable Toy.engine_exec toy_catalog fresh_state) in
  (toy_catalog (dbst st) count_query (migrationsTable (drv st)) = inr ([VInt 1] :: []) /\
   ensureVersionTable Toy.engine_exec toy_catalog st =
     (mkSt (drv st) (dbst st) (fs st) (log st ++ [count_query]), None)) /\
  ((fun d q n => inl "disk I/O error") (dbst fresh_state) count_query
     (migrationsTable (drv fresh_state)) = @inl Toy.TErr (list (list Value)) "disk I/O error" /\
   ensureVersionTable Toy.engine_exec (fun d q n => inl "disk I/O error") fresh_state =
     (mkSt (drv fresh_state) (dbst fresh_state) (fs fresh_state)
        (log fresh_state ++ [count_query]),
      Some (DBError (OEngine "disk I/O error") count_query))).
Proof.
  cbv zeta. split; split.
  - vm_compute. reflexivity.
  - apply (proj1 (ensureVersionTable_existing_or_error Toy.engine_exec toy_catalog _) []).
    vm_compute. reflexivity.
  - reflexivity.
  - apply (proj2 (ensureVersionTable_existing_or_error Toy.engine_exec
                    (fun d q n => inl "disk I/O error") fresh_state)).
    reflexivity.
Defined.

Lemma ensureVersionTable_creates_missing_table_witness :
  toy_catalog (dbst fresh_state) count_query (migrationsTable (drv fresh_state))
    = inr ([VInt 0] :: []) /\
  0%Z <> 1%Z /\
  ensureVersionTable Toy.engine_exec toy_catalog fresh_state =
    (mkSt (drv fresh_state)
       (fst (Toy.engine_exec (dbst fresh_state)
               ("CREATE TABLE schema_migrations" ++ create_tail) []))
       (fs fresh_state)
       (log fresh_state ++ [count_query; ("CREATE TABLE schema_migrations" ++ create_tail)%string])%list,
     None).
Proof.
  split; [reflexivity|]. split; [discriminate|].
  exact (ensureVersionTable_creates_missing_table Toy.engine_exec toy_catalog
           fresh_state 0 [] eq_refl ltac:(discriminate)).
Defined.

Lemma Open_success_state_witness :
  exists st',
    Open Toy.engine_exec toy_catalog toy_connect toy_ping 7 ["/tmp/v.db"]
      (URIOk (mkURL "/tmp/v.db" [("x-migrations-table", "versions")])) = (Some st', None) /\
    toy_ping (toy_connect "/tmp/v.db") = None /\
    drv st' = mkSqlite 7 "/tmp/v.db" "versions" false 0 /\
    fs st' = ["/tmp/v.db"] /\
    exists rest, log st' = count_query :: rest.
Proof.
  eexists. split; [reflexivity|].
  exact (Open_success_state Toy.engine_exec toy_catalog toy_connect toy_ping 7 ["/tmp/v.db"]
           (mkURL "/tmp/v.db" [("x-migrations-table", "versions")]) _ eq_refl).
Defined.

Lemma Open_creates_missing_table_witness :
  toy_ping (toy_connect "/tmp/v.db") = None /\
  toy_catalog (toy_connect "/tmp/v.db") count_query "versions" = inr ([VInt 0] :: []) /\
  0%Z <> 1%Z /\
  snd (Toy.engine_exec (toy_connect "/tmp/v.db") ("CREATE TABLE versions" ++ create_tail) [])
    = None /\
  Open Toy.engine_exec toy_catalog toy_connect toy_ping 7 ["/tmp/v.db"]
    (URIOk (mkURL "/tmp/v.db" [("x-migrations-table", "versions")])) =
    (Some (mkSt (mkSqlite 7 "/tmp/v.db" "versions" false 0)
            (fst (Toy.engine_exec (toy_connect "/tmp/v.db")
                    ("CREATE TABLE versions" ++ create_tail) []))
            ["/tmp/v.db"] [count_query; ("CREATE TABLE versions" ++ create_tail)%string]),
     None).
Proof.
  split; [reflexivity|]. split; [reflexivity|]. split; [discriminate|].
  split; [reflexivity|].
  exact (Open_creates_missing_table Toy.engine_exec toy_catalog toy_connect toy_ping 7
           ["/tmp/v.db"] (mkURL "/tmp/v.db" [("x-migrations-table", "versions")])
           0 [] eq_refl eq_refl ltac:(discriminate) eq_refl).
Defined.

Lemma lite_ensure_present (s : St Lite.LDB) :
  (Z.of_nat (length (filter (fun t => String.eqb (fst t) (migrationsTable (drv s)))
                       (Lite.tables (dbst s)))) =? 1)%Z = true ->
  ensureVersionTable Lite.engine_exec Lite.catalog s =
    (mkSt (drv s) (dbst s) (fs s) (log s ++ [count_query]), None).
Proof.
  intros Hs. unfold ensureVersionTable, bind, get_drv, catalogRow, ret.
  cbn [drv dbst]. unfold Lite.catalog. rewrite String.eqb_refl.
  cbn [scan_int]. rewrite Hs. reflexivity.
Qed.

Lemma lite_ensure_absent (st : St Lite.LDB) :
  (Z.of_nat (length (filter (fun t => String.eqb (fst t) (migrationsTable (drv st)))
                       (Lite.tables (dbst st)))) =? 1)%Z = false ->
  ensureVersionTable Lite.engine_exec Lite.catalog st =
  check (exec Lite.engine_exec create_stmt []) (ret None)
    (mkSt (drv st) (dbst st) (fs st) (log st ++ [count_query])).
Proof.
  intros Hs. unfold ensureVersionTable, bind, get_drv, catalogRow.
  cbn [drv dbst fs log]. unfold Lite.catalog. rewrite String.eqb_refl.
  cbn [scan_int]. rewrite Hs. reflexivity.
Qed.

Lemma lite_create_exists (st : St Lite.LDB) (r : list (Z * bool)) :
  Lite.table_name_ok (migrationsTable (drv st)) = true ->
  Lite.find_table (migrationsTable (drv st)) (Lite.tables (dbst st)) = Some r ->
  snd (check (exec Lite.engine_exec create_stmt []) (ret None) st) <> None.
Proof.
  intros Ht Hf. unfold check, bind. rewrite lite_exec_create by exact Ht.
  rewrite Hf. cbv beta iota. cbn [snd]. discriminate.
Qed.

Lemma lite_create_count (st : St Lite.LDB) :
  Lite.table_name_ok (migrationsTable (drv st)) = true ->
  Lite.find_table (migrationsTable (drv st)) (Lite.tables (dbst st)) = None ->
  (Z.of_nat (length (filter (fun t => String.eqb (fst t) (migrationsTable (drv st)))
     (Lite.tables (dbst (fst (check (exec Lite.engine_exec create_stmt []) (ret None) st))))))
   =? 1)%Z = true.
Proof.
  intros Ht Hf. unfold check, bind. rewrite lite_exec_create by exact Ht.
  rewrite Hf. cbv beta iota. unfold ret. cbn [fst drv dbst Lite.tables Lite.with_tables].
  rewrite filter_app, (find_table_none_filter _ _ Hf). cbn [filter fst].
  rewrite String.eqb_refl. reflexivity.
Qed.

Lemma lite_check_drv (st : St Lite.LDB) :
  drv (fst (check (exec Lite.engine_exec create_stmt []) (ret None) st)) = drv st.
Proof. apply check_drv; [apply exec_drv | reflexivity]. Qed.

(** X6.  On the named engine model, for a plain table name,
    [ensureVersionTable] is idempotent: once it has succeeded, running it
    again issues only the catalog query and changes nothing else.  For
    the schema-qualified name [main.schema_migrations] it is not: the
    first run creates the table [schema_migrations]; the second run's
    catalog query counts no table named [main.schema_migrations], and its
    [CREATE TABLE] fails with [table schema_migrations already exists]. *)
Theorem ensureVersionTable_idempotent :
  (forall st : St Lite.LDB,
     Lite.table_name_ok (migrationsTable (drv st)) = true ->
     snd (ensureVersionTable Lite.engine_exec Lite.catalog st) = None ->
     let st1 := fst (ensureVersionTable Lite.engine_exec Lite.catalog st) in
     ensureVersionTable Lite.engine_exec Lite.catalog st1 =
       (mkSt (drv st1) (dbst st1) (fs st1) (log st1 ++ [count_query]), None)) /\
  (let st1 := fst (ensureVersionTable Lite.engine_exec Lite.catalog qualified_new) in
   snd (ensureVersionTable Lite.engine_exec Lite.catalog qualified_new) = None /\
   snd (ensureVersionTable Lite.engine_exec Lite.catalog st1) =
     Some (DBError (OEngine "table schema_migrations already exists")
             ("CREATE TABLE main.schema_migrations" ++ create_tail))).
Proof.
  split.
  - intros st Ht Hok st1. subst st1.
    destruct (Z.of_nat (length (filter (fun t => String.eqb (fst t) (migrationsTable (drv st)))
                                  (Lite.tables (dbst st)))) =? 1)%Z eqn:Hc.
    + rewrite (lite_ensure_present st Hc). apply lite_ensure_present. exact Hc.
    + rewrite (lite_ensure_absent st Hc) in Hok |- *.
      set (s0 := mkSt (drv st) (dbst st) (fs st) (log st ++ [count_query])) in *.
      assert (Ht0 : Lite.table_name_ok (migrationsTable (drv s0)) = true) by exact Ht.
      destruct (Lite.find_table (migrationsTable (drv s0)) (Lite.tables (dbst s0))) eqn:Hf.
      * exfalso. exact (lite_create_exists s0 _ Ht0 Hf Hok).
      * apply lite_ensure_present. rewrite lite_check_drv. exact (lite_create_count s0 Ht0 Hf).
  - cbv zeta. split; vm_compute; reflexivity.
Qed.

Lemma ensureVersionTable_idempotent_witness :
  Lite.table_name_ok (migrationsTable (drv lite_new)) = true /\
  snd (ensureVersionTable Lite.engine_exec Lite.catalog lite_new) = None /\
  ensureVersionTable Lite.engine_exec Lite.catalog
    (fst (ensureVersionTable Lite.engine_exec Lite.catalog lite_new)) =
  (mkSt (drv (fst (ensureVersionTable Lite.engine_exec Lite.catalog lite_new)))
        (dbst (fst (ensureVersionTable Lite.engine_exec Lite.catalog lite_new)))
        (fs (fst (ensureVersionTable Lite.engine_exec Lite.catalog lite_new)))
        (log (fst (ensureVersionTable Lite.engine_exec Lite.catalog lite_new)) ++ [count_query]),
   None).
Proof.
  split; [reflexivity|]. split; [reflexivity|].
  exact (proj1 ensureVersionTable_idempotent lite_new eq_refl eq_refl).
Defined.

Section GenericTx.

Context {DB Err : Type}.
Variable E : DB -> string -> list Arg -> DB * option Err.

Lemma exec_eq (op : string) (args : list Arg) (st : St DB) :
  let op' := strings_Replace op MIGRATIONS_TABLE (migrationsTable (drv st)) in
  exec E op args st =
  (mkSt (drv st) (fst (E (dbst st) op' args)) (fs st) (log st ++ [op']),
   option_map (fun e => DBError (OEngine e) op') (snd (E (dbst st) op' args))).
Proof. unfold exec. destruct (E _ _ _) as [d [e|]]; reflexivity. Qed.

Lemma exec_fs (op : string) (args : list Arg) (st : St DB) :
  fs (fst (exec E op args st)) = fs st.
Proof. unfold exec. destruct (E _ _ _). reflexivity. Qed.

Lemma check_frame {X : Type} (f : St DB -> X) (m k : M DB (option (Error Err))) :
  (forall s, f (fst (m s)) = f s) -> (forall s, f (fst (k s)) = f s) ->
  forall s, f (fst (check m k s)) = f s.
Proof.
  intros Hm Hk s. unfold check, bind.
  specialize (Hm s). destruct (m s) as [s1 [e|]]; cbn [fst] in *; [exact Hm|].
  rewrite Hk. exact Hm.
Qed.

(** A field that no [exec] changes and the action keeps is the one
    [transactionally] sets up before its first statement. *)
Lemma transactionally_frame {X : Type} (f : St DB -> X)
  (thunk : M DB (option (Error Err))) (st : St DB) :
  (forall op args s, f (fst (exec E op args s)) = f s) ->
  (forall s, f (fst (thunk s)) = f s) ->
  f (fst (transactionally E thunk st)) =
  f (mkSt (set_txid (drv st) (wrap64 (txid (drv st) + 1))) (dbst st) (fs st) (log st)).
Proof.
  intros Hx Ht. rewrite transactionally_unfold. cbv zeta.
  set (n := wrap64 (txid (drv st) + 1)).
  set (s0 := mkSt (set_txid (drv st) n) (dbst st) (fs st) (log st)).
  pose proof (Hx ("SAVEPOINT " ++ txname_of n)%string [] s0) as HB.
  destruct (exec E ("SAVEPOINT " ++ txname_of n) [] s0) as [stB [e|]];
    cbn [fst] in HB.
  - cbn [fst]. rewrite Hx. exact HB.
  - pose proof (Ht stB) as HC. destruct (thunk stB) as [stC [e'|]]; cbn [fst] in HC;
      cbn [fst]; rewrite Hx; congruence.
Qed.

Lemma SetVersion_thunk_frame {X : Type} (f : St DB -> X) (v : Z) (b : bool) :
  (forall op args s, f (fst (exec E op args s)) = f s) ->
  forall s,
  f (fst (check (exec E delete_stmt [])
               (if (0 <=? v)%Z then exec E insert_stmt [AInt v; ABool b] else ret None) s))
  = f s.
Proof.
  intros Hx. apply check_frame; [apply Hx|].
  intros s'. destruct (0 <=? v)%Z; [apply Hx | reflexivity].
Qed.

End GenericTx.

(** X7.  When the [SAVEPOINT] statement fails, [transactionally] never
    runs the action: it issues [ROLLBACK TO] the same savepoint and
    returns the savepoint's error, and its outcome is the same whatever
    the action is. *)
Theorem transactionally_savepoint_failure
  {DB Err : Type} (E : DB -> string -> list Arg -> DB * option Err)
  (t1 t2 : M DB (option (Error Err))) (st stB : St DB) (e : Error Err) :
  let n := wrap64 (txid (drv st) + 1) in
  exec E ("SAVEPOINT " ++ txname_of n) []
    (mkSt (set_txid (drv st) n) (dbst st) (fs st) (log st)) = (stB, Some e) ->
  transactionally E t1 st =
    (fst (exec E ("ROLLBACK TO " ++ txname_of n) [] stB), Some e) /\
  transactionally E t1 st = transactionally E t2 st.
Proof.
  intros n HB.
  rewrite !transactionally_unfold. cbv zeta. fold n. rewrite HB.
  split; reflexivity.
Qed.

Lemma transactionally_savepoint_failure_witness :
  exec savepoint_fail_exec ("SAVEPOINT " ++ txname_of (wrap64 (txid (drv fresh_state) + 1))) []
    (mkSt (set_txid (drv fresh_state) (wrap64 (txid (drv fresh_state) + 1)))
       (dbst fresh_state) (fs fresh_state) (log fresh_state)) =
    (mkSt (set_txid (drv fresh_state) 1) (dbst fresh_state) (fs fresh_state)
       (log fresh_state ++ ["SAVEPOINT txn_1"]),
     Some (DBError (OEngine "database is locked") "SAVEPOINT txn_1")) /\
  transactionally savepoint_fail_exec failing_thunk fresh_state =
    (fst (exec savepoint_fail_exec
            ("ROLLBACK TO " ++ txname_of (wrap64 (txid (drv fresh_state) + 1))) []
            (mkSt (set_txid (drv fresh_state) 1) (dbst fresh_state) (fs fresh_state)
               (log fresh_state ++ ["SAVEPOINT txn_1"]))),
     Some (DBError (OEngine "database is locked") "SAVEPOINT txn_1")) /\
  transactionally savepoint_fail_exec failing_thunk fresh_state =
    transactionally savepoint_fail_exec releasing_thunk fresh_state.
Proof.
  assert (H : exec savepoint_fail_exec
                ("SAVEPOINT " ++ txname_of (wrap64 (txid (drv fresh_state) + 1))) []
                (mkSt (set_txid (drv fresh_state) (wrap64 (txid (drv fresh_state) + 1)))
                   (dbst fresh_state) (fs fresh_state) (log fresh_state)) =
              (mkSt (set_txid (drv fresh_state) 1) (dbst fresh_state) (fs fresh_state)
                 (log fresh_state ++ ["SAVEPOINT txn_1"]),
               Some (DBError (OEngine "database is locked") "SAVEPOINT txn_1")))
    by reflexivity.
  split; [exact H|].
  exact
      (transactionally_savepoint_failure savepoint_fail_exec failing_thunk releasing_thunk
         fresh_state _ _ H).
Defined.

(** X8.  Whatever the engine answers, [SetVersion] changes the driver
    struct only by advancing the savepoint counter by one (with the
    wrap-around of [atomic.AddInt64]), and it never touches the file
    system. *)
Theorem SetVersion_advances_txid
  {DB Err : Type} (E : DB -> string -> list Arg -> DB * option Err)
  (v : Z) (b : bool) (st : St DB) :
  drv (fst (SetVersion E v b st)) = set_txid (drv st) (wrap64 (txid (drv st) + 1)) /\
  fs (fst (SetVersion E v b st)) = fs st.
Proof.
  unfold SetVersion. split.
  - apply (transactionally_frame E drv); [apply exec_drv|].
    apply SetVersion_thunk_frame, exec_drv.
  - apply (transactionally_frame E fs); [apply exec_fs|].
    apply SetVersion_thunk_frame, exec_fs.
Qed.

(** X9.  When the savepoint is created but the [DELETE] of the
    bookkeeping table fails, [SetVersion] never issues the [INSERT]: its
    last two statements are the [DELETE] and [ROLLBACK TO] the savepoint,
    and it returns the [DELETE]'s error wrapped with the statement text. *)
Theorem SetVersion_delete_failure
  {DB Err : Type} (E : DB -> string -> list Arg -> DB * option Err)
  (v : Z) (b : bool) (st stB : St DB) (d2 : DB) (e2 : Err) :
  let n := wrap64 (txid (drv st) + 1) in
  exec E ("SAVEPOINT " ++ txname_of n) []
    (mkSt (set_txid (drv st) n) (dbst st) (fs st) (log st)) = (stB, None) ->
  E (dbst stB) ("DELETE FROM " ++ migrationsTable (drv st)) [] = (d2, Some e2) ->
  snd (SetVersion E v b st) =
    Some (DBError (OEngine e2) ("DELETE FROM " ++ migrationsTable (drv st))) /\
  log (fst (SetVersion E v b st)) =
    (log stB ++ [("DELETE FROM " ++ migrationsTable (drv st))%string;
                 ("ROLLBACK TO " ++ txname_of n)%string])%list.
Proof.
  intros n HB HD.
  assert (Hdrv : drv stB = set_txid (drv st) n).
  { pose proof (exec_drv E ("SAVEPOINT " ++ txname_of n)%string []
                  (mkSt (set_txid (drv st) n) (dbst st) (fs st) (log st))) as H.
    rewrite HB in H. exact H. }
  assert (HT : SetVersion E v b st =
    (fst (exec E ("ROLLBACK TO " ++ txname_of n) []
            (mkSt (drv stB) d2 (fs stB)
               (log stB ++ ["DELETE FROM " ++ migrationsTable (drv st)]))),
     Some (DBError (OEngine e2) ("DELETE FROM " ++ migrationsTable (drv st))))).
  { unfold SetVersion. rewrite transactionally_unfold. cbv zeta. fold n. rewrite HB.
    unfold check, bind. cbv beta. rewrite (exec_eq E delete_stmt [] stB).
    cbv zeta. rewrite Hdrv. cbn [migrationsTable set_txid]. rewrite replace_delete, HD.
    reflexivity. }
  rewrite HT. cbn [fst snd]. split; [reflexivity|].
  rewrite exec_log. cbn [log drv].
  destruct (txname_plain n) as [_ Pd].
  rewrite Replace_no_dollar by (rewrite no_dollar_app, Pd; reflexivity).
  rewrite <- app_assoc. reflexivity.
Qed.

Lemma SetVersion_delete_failure_witness :
  exec delete_fail_exec ("SAVEPOINT " ++ txname_of (wrap64 (txid (drv fresh_state) + 1))) []
    (mkSt (set_txid (drv fresh_state) (wrap64 (txid (drv fresh_state) + 1)))
       (dbst fresh_state) (fs fresh_state) (log fresh_state)) = (tx_saved, None) /\
  delete_fail_exec (dbst tx_saved) ("DELETE FROM " ++ migrationsTable (drv fresh_state)) [] =
    (dbst tx_saved, Some "disk I/O error") /\
  snd (SetVersion delete_fail_exec 5 false fresh_state) =
    Some (DBError (OEngine "disk I/O error")
            ("DELETE FROM " ++ migrationsTable (drv fresh_state))) /\
  log (fst (SetVersion delete_fail_exec 5 false fresh_state)) =
    (log tx_saved ++ [("DELETE FROM " ++ migrationsTable (drv fresh_state))%string;
                      ("ROLLBACK TO " ++ txname_of (wrap64 (txid (drv fresh_state) + 1)))%string])%list.
Proof.
  assert (H1 : exec delete_fail_exec
                 ("SAVEPOINT " ++ txname_of (wrap64 (txid (drv fresh_state) + 1))) []
                 (mkSt (set_txid (drv fresh_state) (wrap64 (txid (drv fresh_state) + 1)))
                    (dbst fresh_state) (fs fresh_state) (log fresh_state)) = (tx_saved, None))
    by (vm_compute; reflexivity).
  assert (H2 : delete_fail_exec (dbst tx_saved)
                 ("DELETE FROM " ++ migrationsTable (drv fresh_state)) [] =
               (dbst tx_saved, Some "disk I/O error")) by reflexivity.
  split; [exact H1|]. split; [exact H2|].
  exact (SetVersion_delete_failure delete_fail_exec 5 false fresh_state tx_saved
           (dbst tx_saved) "disk I/O error" H1 H2).
Defined.







(** X11.  On the named engine model, for a plain table name whose table
    exists and a transaction counter that does not wrap in two steps, two
    successive [SetVersion] calls both succeed and [Version] then reports
    the second one: [(v2, d2)] when [v2 >= 0], [NilVersion] with
    [dirty = false] otherwise, whatever the first call wrote. *)
Theorem SetVersion_last_write_wins (v1 v2 : Z) (b1 b2 : bool) (st : St Lite.LDB)
  (r0 : list (Z * bool)) :
  Lite.table_name_ok (migrationsTable (drv st)) = true ->
  Lite.find_table (migrationsTable (drv st)) (Lite.tables (dbst st)) = Some r0 ->
  (-1 <= txid (drv st) < 2 ^ 63 - 2)%Z ->
  let st1 := fst (SetVersion Lite.engine_exec v1 b1 st) in
  snd (SetVersion Lite.engine_exec v1 b1 st) = None /\
  snd (SetVersion Lite.engine_exec v2 b2 st1) = None /\
  snd (Version Lite.engine_query (fst (SetVersion Lite.engine_exec v2 b2 st1))) =
    (if (0 <=? v2)%Z then (v2, b2, None) else (NilVersion, false, None)).
Proof.
  intros Ht Hf Hr st1.
  destruct (lite_SetVersion v1 b1 st r0 Ht Hf ltac:(lia)) as [s1 [H1 [D1 [T1 _]]]].
  assert (E1 : st1 = s1) by (subst st1; rewrite H1; reflexivity).
  assert (M1 : migrationsTable (drv s1) = migrationsTable (drv st)) by (rewrite D1; reflexivity).
  assert (Ht1 : Lite.table_name_ok (migrationsTable (drv s1)) = true) by (rewrite M1; exact Ht).
  assert (Hf1 : Lite.find_table (migrationsTable (drv s1)) (Lite.tables (dbst s1)) =
                Some (if (0 <=? v1)%Z then [(v1, b1)] else []))
    by (rewrite M1, T1; exact (find_table_set _ _ _ _ Hf)).
  assert (Hr1 : (-1 <= txid (drv s1) < 2 ^ 63 - 1)%Z) by (rewrite D1; cbn [txid set_txid]; lia).
  destruct (lite_SetVersion v2 b2 s1 _ Ht1 Hf1 Hr1) as [s2 [H2 [D2 [T2 _]]]].
  assert (M2 : migrationsTable (drv s2) = migrationsTable (drv s1)) by (rewrite D2; reflexivity).
  assert (Ht2 : Lite.table_name_ok (migrationsTable (drv s2)) = true) by (rewrite M2; exact Ht1).
  rewrite E1, H1, H2. cbn [snd fst]. split; [reflexivity|]. split; [reflexivity|].
  rewrite (lite_Version s2 Ht2), M2, T2, (find_table_set _ _ _ _ Hf1).
  destruct (0 <=? v2)%Z; reflexivity.
Qed.

Lemma SetVersion_last_write_wins_witness :
  Lite.table_name_ok (migrationsTable (drv lite_fresh)) = true /\
  Lite.find_table (migrationsTable (drv lite_fresh)) (Lite.tables (dbst lite_fresh)) = Some [] /\
  (-1 <= txid (drv lite_fresh) < 2 ^ 63 - 2)%Z /\
  snd (SetVersion Lite.engine_exec 3 true lite_fresh) = None /\
  snd (SetVersion Lite.engine_exec 4 false
         (fst (SetVersion Lite.engine_exec 3 true lite_fresh))) = None /\
  snd (Version Lite.engine_query
         (fst (SetVersion Lite.engine_exec 4 false
                 (fst (SetVersion Lite.engine_exec 3 true lite_fresh))))) =
    (if (0 <=? 4)%Z then (4%Z, false, None) else (NilVersion, false, None)).
Proof.
  split; [reflexivity|]. split; [reflexivity|]. split; [cbn; lia|].
  exact (SetVersion_last_write_wins 3 4 true false lite_fresh [] eq_refl eq_refl
           ltac:(cbn; lia)).
Defined.

(** [Lock] on the named engine model, on an unlocked driver. *)
Lemma lite_Lock (st : St Lite.LDB) :
  locked (drv st) = false ->
  Lock Lite.engine_exec st =
  let l1 := (log st ++ ["PRAGMA locking_mode = EXCLUSIVE"; "BEGIN EXCLUSIVE"])%list in
  match Lite.txn (dbst st) with
  | None =>
      (mkSt (set_locked (drv st) true)
         (Lite.mkLDB (Lite.tables (dbst st)) (Lite.sps (dbst st)) (Some Lite.ByBegin) true)
         (fs st) l1, None)
  | Some k =>
      (mkSt (set_locked (drv st) true)
         (Lite.mkLDB (Lite.tables (dbst st)) (Lite.sps (dbst st)) (Some k) true)
         (fs st) l1,
       Some (DBError (OEngine "cannot start a transaction within a transaction")
               "BEGIN EXCLUSIVE"))
  end.
Proof.
  intros L. unfold Lock, check, bind, get_drv, put_drv, ret. rewrite L.
  rewrite (exec_eq Lite.engine_exec "PRAGMA locking_mode = EXCLUSIVE"). cbv zeta.
  cbn [dbst drv fs log set_locked migrationsTable].
  rewrite Replace_no_dollar by reflexivity. rewrite lite_pragma. cbn [fst snd option_map].
  rewrite (exec_eq Lite.engine_exec "BEGIN EXCLUSIVE"). cbv zeta.
  cbn [dbst drv fs log set_locked migrationsTable].
  rewrite Replace_no_dollar by reflexivity. rewrite lite_begin.
  cbn [Lite.tables Lite.sps Lite.txn Lite.excl].
  destruct (Lite.txn (dbst st)); cbn [fst snd option_map]; rewrite <- app_assoc; reflexivity.
Qed.

(** [Unlock] on the named engine model, on a locked driver with a
    transaction open. *)
Lemma lite_Unlock (st : St Lite.LDB) (k : Lite.TxKind) :
  locked (drv st) = true -> Lite.txn (dbst st) = Some k ->
  Unlock Lite.engine_exec st =
  (mkSt (drv st) (Lite.mkLDB (Lite.tables (dbst st)) [] None (Lite.excl (dbst st)))
     (fs st) (log st ++ ["COMMIT"]), None).
Proof.
  intros L T. unfold Unlock, check, bind, get_drv, ret. rewrite L. cbn [negb].
  rewrite (exec_eq Lite.engine_exec "COMMIT"). cbv zeta.
  cbn [dbst drv fs log migrationsTable].
  rewrite Replace_no_dollar by reflexivity. rewrite (lite_commit _ k T). reflexivity.
Qed.

(** X12.  Outside a [Lock], a [SetVersion] that fails leaves open the
    transaction its [SAVEPOINT] started.  On the named engine model, with
    no transaction open, a plain table name whose table is missing, and a
    transaction counter that does not wrap, [SetVersion] fails at the
    [DELETE] with [no such table]; its [ROLLBACK TO] restores the tables
    but keeps the savepoint and the transaction, and nothing commits it;
    a following [Lock] fails at [BEGIN EXCLUSIVE] with [cannot start a
    transaction within a transaction]. *)
Theorem SetVersion_failure_leaves_transaction_open (v : Z) (b : bool) (st : St Lite.LDB) :
  Lite.table_name_ok (migrationsTable (drv st)) = true ->
  Lite.find_table (migrationsTable (drv st)) (Lite.tables (dbst st)) = None ->
  Lite.txn (dbst st) = None -> locked (drv st) = false ->
  (-1 <= txid (drv st) < 2 ^ 63 - 1)%Z ->
  let st1 := fst (SetVersion Lite.engine_exec v b st) in
  snd (SetVersion Lite.engine_exec v b st) =
    Some (DBError (OEngine ("no such table: " ++ migrationsTable (drv st)))
            ("DELETE FROM " ++ migrationsTable (drv st))) /\
  Lite.tables (dbst st1) = Lite.tables (dbst st) /\
  Lite.txn (dbst st1) = Some Lite.BySavepoint /\
  Lite.sps (dbst st1) =
    (txname_of (txid (drv st) + 1), Lite.tables (dbst st)) :: Lite.sps (dbst st) /\
  snd (Lock Lite.engine_exec st1) =
    Some (DBError (OEngine "cannot start a transaction within a transaction")
            "BEGIN EXCLUSIVE").
Proof.
  intros Ht Hf Tx L Hr st1.
  assert (Pn := txname_ident (txid (drv st) + 1) ltac:(lia)).
  assert (HS : exists lg,
    SetVersion Lite.engine_exec v b st =
    (mkSt (set_txid (drv st) (txid (drv st) + 1))
       (Lite.mkLDB (Lite.tables (dbst st))
          ((txname_of (txid (drv st) + 1), Lite.tables (dbst st)) :: Lite.sps (dbst st))
          (Lite.savepoint_txn (Lite.txn (dbst st))) (Lite.excl (dbst st)))
       (fs st) lg,
     Some (DBError (OEngine ("no such table: " ++ migrationsTable (drv st)))
             ("DELETE FROM " ++ migrationsTable (drv st))))).
  { unfold SetVersion. rewrite transactionally_unfold. cbv zeta.
    rewrite (wrap64_small (txid (drv st) + 1)) by lia.
    rewrite lite_exec_savepoint by exact Pn.
    cbv iota. unfold check, bind.
    rewrite lite_exec_delete by exact Ht.
    cbn [drv dbst fs log migrationsTable set_txid Lite.tables].
    rewrite Hf. unfold ret. cbv iota.
    erewrite lite_exec_rollback; [| exact Pn | reflexivity].
    eexists. reflexivity. }
  destruct HS as [lg HS]. subst st1. rewrite HS.
  cbn [fst snd dbst Lite.tables Lite.txn Lite.sps]. rewrite Tx.
  split; [reflexivity|]. split; [reflexivity|]. split; [reflexivity|].
  split; [reflexivity|].
  rewrite lite_Lock by exact L. reflexivity.
Qed.

Lemma SetVersion_failure_leaves_transaction_open_witness :
  Lite.table_name_ok (migrationsTable (drv lite_new)) = true /\
  Lite.find_table (migrationsTable (drv lite_new)) (Lite.tables (dbst lite_new)) = None /\
  Lite.txn (dbst lite_new) = None /\ locked (drv lite_new) = false /\
  (-1 <= txid (drv lite_new) < 2 ^ 63 - 1)%Z /\
  snd (SetVersion Lite.engine_exec 5 false lite_new) =
    Some (DBError (OEngine ("no such table: " ++ migrationsTable (drv lite_new)))
            ("DELETE FROM " ++ migrationsTable (drv lite_new))) /\
  Lite.tables (dbst (fst (SetVersion Lite.engine_exec 5 false lite_new))) =
    Lite.tables (dbst lite_new) /\
  Lite.txn (dbst (fst (SetVersion Lite.engine_exec 5 false lite_new))) = Some Lite.BySavepoint /\
  Lite.sps (dbst (fst (SetVersion Lite.engine_exec 5 false lite_new))) =
    (txname_of (txid (drv lite_new) + 1), Lite.tables (dbst lite_new)) :: Lite.sps (dbst lite_new) /\
  snd (Lock Lite.engine_exec (fst (SetVersion Lite.engine_exec 5 false lite_new))) =
    Some (DBError (OEngine "cannot start a transaction within a transaction")
            "BEGIN EXCLUSIVE").
Proof.
  split; [reflexivity|]. split; [reflexivity|]. split; [reflexivity|].
  split; [reflexivity|]. split; [cbn; lia|].
  exact (SetVersion_failure_leaves_transaction_open 5 false lite_new
           eq_refl eq_refl eq_refl eq_refl ltac:(cbn; lia)).
Defined.

(** X13.  Whenever [Version] returns an error, the version and dirty
    values it returns with it are [0] and [false]; the error carries the
    query text. *)
Theorem Version_error_values
  {DB Err : Type} (Q : DB -> string -> list Arg -> Err + list (list Value))
  (st : St DB) (v : Z) (d : bool) (e : Error Err) :
  snd (Version Q st) = (v, d, Some e) ->
  v = 0%Z /\ d = false /\
  exists o, e = DBError o (version_query (migrationsTable (drv st))).
Proof.
  unfold Version, bind, get_drv, queryRow, ret. cbn [drv dbst fs log snd].
  destruct (Q _ _ _) as [e' | [| row rest]].
  - intros H. injection H as <- <- <-. split; [reflexivity|]. split; [reflexivity|].
    eexists. reflexivity.
  - intros H. discriminate H.
  - destruct (scan2 row) as [[v' d']|]; intros H; [discriminate H|].
    injection H as <- <- <-. split; [reflexivity|]. split; [reflexivity|].
    eexists. reflexivity.
Qed.

Lemma Version_error_values_witness :
  snd (Version notadb_query fresh_state) =
    (0%Z, false, Some (DBError (OEngine "file is not a database")
                         (version_query (migrationsTable (drv fresh_state))))) /\
  0%Z = 0%Z /\ false = false /\
  exists o, DBError (Err := Toy.TErr) (OEngine "file is not a database")
              (version_query (migrationsTable (drv fresh_state))) =
            DBError o (version_query (migrationsTable (drv fresh_state))).
Proof.
  assert (H : snd (Version notadb_query fresh_state) =
    (0%Z, false, Some (DBError (OEngine "file is not a database")
                         (version_query (migrationsTable (drv fresh_state))))))
    by reflexivity.
  split; [exact H|].
  exact (Version_error_values notadb_query fresh_state _ _ _ H).
Defined.

(** X14.  On an unlocked driver, [Lock] hands the engine
    [PRAGMA locking_mode = EXCLUSIVE] and then, only if that succeeded,
    [BEGIN EXCLUSIVE]; it returns the first error, wrapped with the
    failing statement, or [nil]. *)
Theorem Lock_statements
  {DB Err : Type} (E : DB -> string -> list Arg -> DB * option Err) (st : St DB) :
  locked (drv st) = false ->
  let pragma := "PRAGMA locking_mode = EXCLUSIVE" in
  let begin := "BEGIN EXCLUSIVE" in
  match E (dbst st) pragma [] with
  | (_, Some e) =>
      log (fst (Lock E st)) = (log st ++ [pragma])%list /\
      snd (Lock E st) = Some (DBError (OEngine e) pragma)
  | (d1, None) =>
      log (fst (Lock E st)) = (log st ++ [pragma; begin])%list /\
      snd (Lock E st) = option_map (fun e => DBError (OEngine e) begin) (snd (E d1 begin []))
  end.
Proof.
  intros L pragma begin.
  unfold Lock, check, bind, get_drv, put_drv, ret. rewrite L.
  cbn [dbst drv fs log set_locked migrationsTable].
  rewrite (exec_eq E "PRAGMA locking_mode = EXCLUSIVE"). cbv zeta.
  cbn [dbst drv fs log set_locked migrationsTable].
  rewrite Replace_no_dollar by reflexivity. fold pragma.
  destruct (E (dbst st) pragma []) as [d1 [e|]]; cbn [fst snd option_map].
  - split; reflexivity.
  - rewrite (exec_eq E "BEGIN EXCLUSIVE"). cbv zeta.
    cbn [dbst drv fs log set_locked migrationsTable].
    rewrite Replace_no_dollar by reflexivity. fold begin.
    destruct (E d1 begin []) as [d2 [e2|]]; cbn [fst snd option_map log];
      (split; [rewrite <- app_assoc; reflexivity | reflexivity]).
Qed.

Lemma Lock_statements_witness :
  (locked (drv fresh_state) = false /\
   log (fst (Lock busy_exec fresh_state)) =
     (log fresh_state ++ ["PRAGMA locking_mode = EXCLUSIVE"; "BEGIN EXCLUSIVE"])%list /\
   snd (Lock busy_exec fresh_state) =
     option_map (fun e => DBError (OEngine e) "BEGIN EXCLUSIVE")
       (snd (busy_exec (fst (busy_exec (dbst fresh_state) "PRAGMA locking_mode = EXCLUSIVE" []))
               "BEGIN EXCLUSIVE" []))) /\
  (locked (drv fresh_state) = false /\
   log (fst (Lock readonly_exec fresh_state)) =
     (log fresh_state ++ ["PRAGMA locking_mode = EXCLUSIVE"])%list /\
   snd (Lock readonly_exec fresh_state) =
     Some (DBError (OEngine "attempt to write a readonly database")
             "PRAGMA locking_mode = EXCLUSIVE")).
Proof.
  split; (split; [reflexivity|]).
  - exact (Lock_statements busy_exec fresh_state eq_refl).
  - exact (Lock_statements readonly_exec fresh_state eq_refl).
Defined.

(** X15.  On the named engine model, from an unlocked driver with no open
    transaction, [Lock] succeeds, switches the connection to exclusive
    locking mode and opens the transaction with [BEGIN EXCLUSIVE]; the
    following [Unlock] succeeds and commits (the transaction is closed and
    every savepoint gone), and the tables are untouched by the pair. *)
Theorem Lock_Unlock_bracket (st : St Lite.LDB) :
  locked (drv st) = false -> Lite.txn (dbst st) = None ->
  let st1 := fst (Lock Lite.engine_exec st) in
  let st2 := fst (Unlock Lite.engine_exec st1) in
  snd (Lock Lite.engine_exec st) = None /\
  Lite.txn (dbst st1) = Some Lite.ByBegin /\ Lite.excl (dbst st1) = true /\
  snd (Unlock Lite.engine_exec st1) = None /\
  Lite.txn (dbst st2) = None /\ Lite.sps (dbst st2) = [] /\
  Lite.tables (dbst st2) = Lite.tables (dbst st).
Proof.
  intros L T st1 st2. subst st2 st1.
  rewrite (lite_Lock st L), T. cbv zeta. cbn [fst snd].
  rewrite (lite_Unlock _ Lite.ByBegin) by reflexivity.
  cbn [fst snd dbst Lite.txn Lite.excl Lite.sps Lite.tables].
  repeat split.
Qed.

Lemma Lock_Unlock_bracket_witness :
  locked (drv lite_fresh) = false /\ Lite.txn (dbst lite_fresh) = None /\
  snd (Lock Lite.engine_exec lite_fresh) = None /\
  Lite.txn (dbst (fst (Lock Lite.engine_exec lite_fresh))) = Some Lite.ByBegin /\
  Lite.excl (dbst (fst (Lock Lite.engine_exec lite_fresh))) = true /\
  snd (Unlock Lite.engine_exec (fst (Lock Lite.engine_exec lite_fresh))) = None /\
  Lite.txn (dbst (fst (Unlock Lite.engine_exec (fst (Lock Lite.engine_exec lite_fresh))))) = None /\
  Lite.sps (dbst (fst (Unlock Lite.engine_exec (fst (Lock Lite.engine_exec lite_fresh))))) = [] /\
  Lite.tables (dbst (fst (Unlock Lite.engine_exec (fst (Lock Lite.engine_exec lite_fresh))))) =
    Lite.tables (dbst lite_fresh).
Proof.
  split; [reflexivity|]. split; [reflexivity|].
  exact (Lock_Unlock_bracket lite_fresh eq_refl eq_refl).
Defined.

(** X16.  [Drop] removes every entry of the path, so once a [Drop] has
    succeeded a second [Drop] on the same driver fails with the
    [os.Remove] error for that path and changes nothing. *)
Theorem Drop_twice {DB Err : Type} (st : St DB) :
  snd (@Drop DB Err st) = None ->
  @Drop DB Err (fst (@Drop DB Err st)) =
    (fst (@Drop DB Err st), Some (PathError "remove" (dbPath (drv st)))).
Proof.
  unfold Drop, bind, get_drv, os_Remove.
  destruct (existsb (String.eqb (dbPath (drv st))) (fs st)); cbn [fst snd drv fs];
    intros H; [|discriminate H].
  rewrite filter_removes. reflexivity.
Qed.

Lemma Drop_twice_witness :
  snd (@Drop Toy.TDB Toy.TErr fresh_state) = None /\
  @Drop Toy.TDB Toy.TErr (fst (@Drop Toy.TDB Toy.TErr fresh_state)) =
    (fst (@Drop Toy.TDB Toy.TErr fresh_state),
     Some (PathError "remove" (dbPath (drv fresh_state)))).
Proof.
  split; [reflexivity|].
  apply Drop_twice. reflexivity.
Defined.
